(** * mp3sync: a shallow embedding of the command and of its path transformer

    The development follows the Go sources:
    - package [transform] ([Do], [getSubFolder], [getFileName], [replaceChars]),
    - package [main] in its two revisions: the one that asks "Start Sync?"
      inside [snycFiles] (module [Sync1]) and the one that asks it inside
      [do] and delegates the copies to [filesync.Do] (module [Sync2]).

    Go strings are byte strings, so they are modelled by [string] (a list of
    8-bit [ascii] values).  The model is the Unix build: [os.PathSeparator]
    is the slash.  Library calls whose code is not part of the program
    (tag loading, directory scans, file copies, the clock, the terminal) are
    inputs of the model. *)

From Stdlib Require Import ZArith List Bool Arith Lia Permutation.
From Stdlib Require Import Strings.Ascii Strings.String Numbers.DecimalString.
Import ListNotations.
Local Open Scope list_scope.
Local Open Scope string_scope.

(** ** Go values shared by both packages *)

(** Package-level error variables, compared by identity in [errors.Is]. *)
Inductive sentinel : Type :=
| errPathNotExisting
| errWriteLog
| errAbortedByUser
| ErrParseTag.

(** An [error] value: one of the package-level variables, an error made at
    run time ([errors.New], [fmt.Errorf] without a wrapping verb, or any error
    that a library returns), or [fmt.Errorf] with the wrapping verb. *)
Inductive error : Type :=
| Sentinel (s : sentinel)
| ErrNew (msg : string)
| ErrWrap (msg : string) (cause : error).

Definition sentinel_text (s : sentinel) : string :=
  match s with
  | errPathNotExisting => "path does not exist"
  | errWriteLog => "failed to write log file"
  | errAbortedByUser => "aborted by user"
  | ErrParseTag => "failed to parse mp3 tag"
  end.

(** The method [Error()] *)
Definition Error (e : error) : string :=
  match e with
  | Sentinel s => sentinel_text s
  | ErrNew msg => msg
  | ErrWrap msg _ => msg
  end.

Definition sentinel_eqb (a b : sentinel) : bool :=
  match a, b with
  | errPathNotExisting, errPathNotExisting
  | errWriteLog, errWriteLog
  | errAbortedByUser, errAbortedByUser
  | ErrParseTag, ErrParseTag => true
  | _, _ => false
  end.

(** [errors.Is err target] for a package-level [target]: walks the chain of
    wrapped errors. *)
Fixpoint errors_Is (err : error) (target : sentinel) : bool :=
  match err with
  | Sentinel s => sentinel_eqb s target
  | ErrNew _ => false
  | ErrWrap _ cause => errors_Is cause target
  end.

(** A call either returns or panics (index out of range, nil dereference). *)
Inductive outcome (A : Type) : Type :=
| Returned (a : A)
| Panicked (why : string).
Arguments Returned {A} a.
Arguments Panicked {A} why.

(** [mp3files.File]: a name and the [os.FileInfo] (nil when not stat'ed). *)
Record FileInfo : Type := { InfoName : string; Size : Z }.
Record File : Type := { Name : string; Info : option FileInfo }.

(** ** The parts of Go's [strings], [path/filepath] and [regexp] in use *)

Module GoStrings.

Definition PathSeparator : ascii := "/"%char.
Definition sep : string := String PathSeparator "".

(** [strings.Replace s old new n] for a non-empty [old] (every call of the
    program passes one): the first [n] non-overlapping occurrences, all of
    them when [n < 0].  [skip] counts the bytes of a matched occurrence
    that are still to be dropped. *)
Fixpoint replaceFrom (old new : string) (skip : nat) (n : Z) (s : string) : string :=
  match s with
  | "" => ""
  | String c s' =>
      match skip with
      | S k => replaceFrom old new k n s'
      | O =>
          if (n =? 0)%Z then s
          else if prefix old s
               then new ++ replaceFrom old new (String.length old - 1) (n - 1) s'
               else String c (replaceFrom old new O n s')
      end
  end.

Definition Replace (s old new : string) (n : Z) : string :=
  replaceFrom old new O n s.

(** [strings.Split s sep] for a non-empty separator; [cur] is the segment
    being read. *)
Fixpoint splitFrom (sp : string) (skip : nat) (cur : string) (s : string) : list string :=
  match s with
  | "" => [cur]
  | String c s' =>
      match skip with
      | S k => splitFrom sp k cur s'
      | O =>
          if prefix sp s
          then cur :: splitFrom sp (String.length sp - 1) "" s'
          else splitFrom sp O (cur ++ String c "") s'
      end
  end.

Definition Split (s sp : string) : list string := splitFrom sp O "" s.

Definition byte_in (lo hi c : ascii) : bool :=
  (nat_of_ascii lo <=? nat_of_ascii c)%nat && (nat_of_ascii c <=? nat_of_ascii hi)%nat.

Definition upper_byte (c : ascii) : ascii :=
  if byte_in "a" "z" c then ascii_of_nat (nat_of_ascii c - 32) else c.

Definition lower_byte (c : ascii) : ascii :=
  if byte_in "A" "Z" c then ascii_of_nat (nat_of_ascii c + 32) else c.

Fixpoint map_bytes (f : ascii -> ascii) (s : string) : string :=
  match s with
  | "" => ""
  | String c s' => String (f c) (map_bytes f s')
  end.

(** [strings.ToUpper] and [strings.ToLower] on the ASCII letters.  Bytes
    from 128 on are kept: the case mapping of a rune outside ASCII that
    the program can meet never yields an ASCII byte, and the program only
    compares the results with ASCII letters. *)
Definition ToUpper : string -> string := map_bytes upper_byte.
Definition ToLower : string -> string := map_bytes lower_byte.

(** The conversion [string(b)] of a byte: the UTF-8 encoding of the rune
    with that number, two bytes from 128 on. *)
Definition string_of_byte (b : ascii) : string :=
  let n := nat_of_ascii b in
  if (n <? 128)%nat then String b ""
  else String (ascii_of_nat (192 + n / 64)) (String (ascii_of_nat (128 + n mod 64)) "").

Fixpoint any_byte (p : ascii -> bool) (s : string) : bool :=
  match s with
  | "" => false
  | String c s' => p c || any_byte p s'
  end.

(** [regexp.MatchString "[A-Z]" s]: some byte of [s] is a capital letter. *)
Definition MatchString_AZ (s : string) : bool := any_byte (byte_in "A" "Z") s.

(** [filepath.Ext]: the suffix from the last dot of the last element. *)
Fixpoint extFrom (s : string) : option string :=
  match s with
  | "" => None
  | String c s' =>
      match extFrom s' with
      | Some e => Some e
      | None =>
          if Ascii.eqb c PathSeparator then None
          else if Ascii.eqb c "." then
                 if any_byte (Ascii.eqb PathSeparator) s' then None else Some s
               else None
      end
  end.

Definition Ext (path : string) : string :=
  match extFrom path with Some e => e | None => "" end.

Fixpoint join_with (sp : string) (l : list string) : string :=
  match l with
  | [] => ""
  | [x] => x
  | x :: l' => x ++ sp ++ join_with sp l'
  end.

(** One element of the path in [filepath.Clean]; [acc] holds the elements
    kept so far, last first. *)
Definition clean_step (rooted : bool) (acc : list string) (elem : string) : list string :=
  if (elem =? "") || (elem =? ".") then acc
  else if elem =? ".." then
         match acc with
         | top :: rest => if top =? ".." then elem :: acc else rest
         | [] => if rooted then acc else [elem]
         end
       else elem :: acc.

(** [filepath.Clean] *)
Definition Clean (path : string) : string :=
  let rooted := prefix sep path in
  let kept := rev (fold_left (clean_step rooted) (Split path sep) []) in
  let out := (if rooted then sep else "") ++ join_with sep kept in
  if out =? "" then "." else out.

(** [filepath.Join]: empty elements are ignored, the rest is joined and
    cleaned; the result is empty when nothing is left. *)
Definition Join (elems : list string) : string :=
  match filter (fun e => negb (e =? "")) elems with
  | [] => ""
  | l => Clean (join_with sep l)
  end.

(** [%d] of package [fmt] *)
Definition format_d (z : Z) : string := NilZero.string_of_int (Z.to_int z).

End GoStrings.

Import GoStrings.

(** ** Package transform *)

Module Transform.

Definition defaultSubfolder : string := "default".
Definition numericSubfolder : string := "#".
Definition frameIDDisk : string := "TPOS".
Definition frameIDTrack : string := "TRCK".

(** [id3v2.Tag] as the transformer reads it: the four accessors and the
    text frames by identifier. *)
Record Tag : Type := {
  Artist : string;
  Album : string;
  Year : string;
  Title : string;
  TextFrames : list (string * string)
}.

(** [tag.GetTextFrame(id).Text]: empty when the frame is absent. *)
Fixpoint GetTextFrame (frames : list (string * string)) (id : string) : string :=
  match frames with
  | [] => ""
  | (k, text) :: rest => if k =? id then text else GetTextFrame rest id
  end.

Definition quote : string := String "034" "".
Definition inverted_question : string := String "194" (String "191" "").

(** The map literal of [replaceChars]. *)
Definition chars : list (string * string) :=
  [ (":", ";"); ("\", ""); ("/", ""); ("?", inverted_question);
    (quote, ","); ("'", ","); ("*", "x"); ("+", "x");
    ("[", "("); ("]", ")"); (">", "-"); ("<", "-"); ("|", "-") ].

(** [replaceChars]: Go ranges over a map in an unspecified order, so the
    order of the visit is an argument; a run uses a permutation of
    [chars]. *)
Definition replaceChars (order : list (string * string)) (s : string) : string :=
  fold_left (fun s kv => Replace s (fst kv) (snd kv) (-1)) order s.

Definition getFileName (order : list (string * string)) (tag : Tag) (ext : string)
  : string * option error :=
  let name := Artist tag in
  let name := if negb (Album tag =? "") then name ++ " - " ++ Album tag else name in
  let name := if negb (Year tag =? "") then name ++ " (" ++ Year tag ++ ")" else name in
  let disk := GetTextFrame (TextFrames tag) frameIDDisk in
  let name := if negb (disk =? "") then name ++ " - " ++ disk else name in
  let track := GetTextFrame (TextFrames tag) frameIDTrack in
  let name :=
    if negb (track =? "") then
      let track := if (String.length track =? 1)%nat then "0" ++ track else track in
      name ++ " - " ++ track
    else name in
  (replaceChars order (name ++ " - " ++ Title tag ++ ext), None).

(** [getSubFolder]; the indexing [parts[0][0]] panics on an empty first
    segment. *)
Definition getSubFolder (fileName source : string) : outcome string :=
  let subFolder := defaultSubfolder in
  let source := Replace fileName (source ++ sep) "" 1 in
  let parts := Split source sep in
  let indexed :=
    if (0 <? List.length parts)%nat then
      match get 0 (hd "" parts) with
      | Some b => Returned (ToUpper (string_of_byte b))
      | None => Panicked "index out of range [0] with length 0"
      end
    else Returned subFolder in
  match indexed with
  | Panicked why => Panicked why
  | Returned subFolder =>
      let matched := MatchString_AZ subFolder in
      Returned (if negb matched then numericSubfolder else subFolder)
  end.

Section WithTagReader.

(** [loadTag], [config.Tag] and its method [Contains] live in files of
    the repository that are not part of this development. *)
Variable loadTag : File -> Tag + error.
Variable ConfigTag : Type.
Variable len : ConfigTag -> nat.
Variable Contains : ConfigTag -> Tag -> bool.

Definition Do (order : list (string * string)) (destination source : string) (f : File)
    (whiteList blackList : ConfigTag) : outcome (string * option error) :=
  match loadTag f with
  | inr err =>
      Returned ("", Some (ErrWrap (sentinel_text ErrParseTag ++ " from " ++ Name f
                                     ++ ": " ++ Error err) (Sentinel ErrParseTag)))
  | inl tag =>
      if ((0 <? len whiteList)%nat && negb (Contains whiteList tag))
         || ((0 <? len blackList)%nat && Contains blackList tag)
      then Returned ("", None)
      else
        match Info f with
        | None => Panicked "nil pointer dereference"
        | Some info =>
            match getFileName order tag (Ext (InfoName info)) with
            | (_, Some err) =>
                Returned ("", Some (ErrWrap (sentinel_text ErrParseTag ++ " from " ++ Name f
                                               ++ ": " ++ Error err) (Sentinel ErrParseTag)))
            | (name, None) =>
                match getSubFolder (Name f) source with
                | Panicked why => Panicked why
                | Returned sub => Returned (Join [destination; sub; name], None)
                end
            end
        end
  end.

End WithTagReader.

End Transform.

Import Transform.

(** ** The world package main runs in *)

(** [config.Config]: the filter is only handed on to the scanner. *)
Module config.
Record Config (Filter : Type) : Type :=
  { Source : string; Destination : string; Filter_ : Filter }.
Arguments Source {Filter} c.
Arguments Destination {Filter} c.
Arguments Filter_ {Filter} c.
End config.

(** [sync.File]: a source file and the destination it is copied to. *)
Module sync.
Record File_ : Type := { Source : File; Destination : File }.
End sync.

Module Runtime.

(** A reading of the wall clock, as [time.Format] sees it. *)
Record Time : Type :=
  { year : nat; month : nat; day : nat; hour : nat; minute : nat; second : nat }.

Inductive Writer : Type := errFormat | listFormat.

(** What a run does to the outside world, oldest first.  The green
    progress texts, the blank lines and the progress bar are left out. *)
Inductive Event : Type :=
| EvPrompt (question answer : string)
| EvPrint (w : Writer) (text : string)
| EvCopy (f : sync.File_) (result : option error)
| EvSync (plan : list sync.File_) (errs : list error).

Record World : Type := {
  answers : list string;
  ticks : nat;
  files : string -> option string;
  trace : list Event
}.

(** The platform: the clock, whether a handle opened with [O_APPEND] but
    neither [O_WRONLY] nor [O_RDWR] may be written (no on POSIX systems,
    where such a write fails with EBADF; yes on Windows, where Go asks
    for append access), and the failures of the file system itself. *)
Record Platform : Type := {
  clock : nat -> Time;
  append_implies_write : bool;
  OpenFile_fails : string -> option error;
  WriteString_fails : string -> string -> option error
}.

Definition M (A : Type) : Type := World -> A * World.
Definition ret {A : Type} (a : A) : M A := fun w => (a, w).
Definition bind {A B : Type} (m : M A) (k : A -> M B) : M B :=
  fun w => let (a, w') := m w in k a w'.

Declare Scope go_scope.
Delimit Scope go_scope with go.
Notation "x <- m ;; k" := (bind m (fun x => k))
  (at level 61, m at next level, right associativity) : go_scope.
Notation "' p <- m ;; k" := (bind m (fun x => match x with p => k end))
  (at level 61, p pattern, m at next level, right associativity) : go_scope.
Notation "m ;;; k" := (bind m (fun _ => k))
  (at level 61, right associativity) : go_scope.
Local Open Scope go_scope.

Definition emit (e : Event) : M unit := fun w =>
  (tt, {| answers := answers w; ticks := ticks w; files := files w;
          trace := trace w ++ [e] |}).

Definition newline : string := String "010" "".

(** [Printf] and [Println] of the two colour writers that are recorded *)
Definition Print (wr : Writer) (text : string) : M unit := emit (EvPrint wr text).
Definition Println (wr : Writer) (text : string) : M unit := Print wr (text ++ newline).

(** [prompt.Input]: the next line the user types, empty at end of input. *)
Definition prompt_Input (question : string) : M string := fun w =>
  let t := hd "" (answers w) in
  (t, {| answers := tl (answers w); ticks := ticks w; files := files w;
         trace := trace w ++ [EvPrompt question t] |}).

Fixpoint for_each {A : Type} (body : A -> M unit) (l : list A) : M unit :=
  match l with
  | [] => ret tt
  | x :: rest => body x ;;; for_each body rest
  end.

(** *** time.Format *)

Definition digit (d : nat) : ascii :=
  match d with
  | 0 => "0" | 1 => "1" | 2 => "2" | 3 => "3" | 4 => "4"
  | 5 => "5" | 6 => "6" | 7 => "7" | 8 => "8" | _ => "9"
  end%char.

Fixpoint digits (width n : nat) : string :=
  match width with
  | O => ""
  | S k => String (digit (n / 10 ^ k)) (digits k (n mod 10 ^ k))
  end.

(** [appendInt]: decimal, padded with zeros up to [width]. *)
Definition appendInt (width n : nat) : string :=
  if (n <? 10 ^ width)%nat then digits width n else format_d (Z.of_nat n).

(** [Time.Format] for the layout elements of [logFileNameFormat]: the
    four-digit year, and month, day, hour, minute and second on two
    digits; any other byte of the layout is copied. *)
Fixpoint formatFrom (skip : nat) (t : Time) (layout : string) : string :=
  match layout with
  | "" => ""
  | String c rest =>
      match skip with
      | S k => formatFrom k t rest
      | O =>
          if prefix "2006" layout then appendInt 4 (year t) ++ formatFrom 3 t rest
          else if prefix "01" layout then appendInt 2 (month t) ++ formatFrom 1 t rest
          else if prefix "02" layout then appendInt 2 (day t) ++ formatFrom 1 t rest
          else if prefix "15" layout then appendInt 2 (hour t) ++ formatFrom 1 t rest
          else if prefix "04" layout then appendInt 2 (minute t) ++ formatFrom 1 t rest
          else if prefix "05" layout then appendInt 2 (second t) ++ formatFrom 1 t rest
          else String c (formatFrom O t rest)
      end
  end.

Definition Format (t : Time) (layout : string) : string := formatFrom O t layout.

(** *** Files *)

Definition O_RDONLY : Z := 0.
Definition O_WRONLY : Z := 1.
Definition O_RDWR : Z := 2.
Definition O_CREATE : Z := 64.
Definition O_APPEND : Z := 1024.

(** [*os.File] *)
Record Handle : Type := { h_name : string; h_writable : bool }.

Definition set_file (w : World) (name content : string) : World :=
  {| answers := answers w; ticks := ticks w;
     files := fun n => if n =? name then Some content else files w n;
     trace := trace w |}.

Section OnPlatform.

Variable pf : Platform.

(** [time.Now] *)
Definition time_Now : M Time := fun w =>
  (clock pf (ticks w),
   {| answers := answers w; ticks := S (ticks w); files := files w; trace := trace w |}).

(** [os.OpenFile]: the file is made when it is missing and [O_CREATE] is
    set; the handle may be written when the access mode says so.  Package
    os asks for exactly one of [O_RDONLY], [O_WRONLY] and [O_RDWR] in the
    flags; with none of them the mode is [O_RDONLY], which is 0. *)
Definition OpenFile (name : string) (flag : Z) (perm : Z) : M (Handle + error) := fun w =>
  match OpenFile_fails pf name with
  | Some err => (inr err, w)
  | None =>
      let access := Z.land flag 3 in
      let writable :=
        (access =? O_WRONLY)%Z || (access =? O_RDWR)%Z
        || (append_implies_write pf && negb (Z.land flag O_APPEND =? 0)%Z) in
      let h := {| h_name := name; h_writable := writable |} in
      match files w name with
      | Some _ => (inl h, w)
      | None =>
          if negb (Z.land flag O_CREATE =? 0)%Z then (inl h, set_file w name "")
          else (inr (ErrNew ("open " ++ name ++ ": no such file or directory")), w)
      end
  end.

(** [File.WriteString] on a handle opened with [O_APPEND]: the data goes
    to the end of the file. *)
Definition WriteString (h : Handle) (data : string) : M (option error) := fun w =>
  if negb (h_writable h)
  then (Some (ErrNew ("write " ++ h_name h ++ ": bad file descriptor")), w)
  else
    match WriteString_fails pf (h_name h) data with
    | Some err => (Some err, w)
    | None =>
        let old := match files w (h_name h) with Some c => c | None => "" end in
        (None, set_file w (h_name h) (old ++ data))
    end.

(** *** The functions that both revisions of package main share *)

Definition logPath : string := "logs".
Definition logFileNameFormat : string := "20060102-150405".

Definition wrapWriteLog (err : error) : error :=
  ErrWrap (sentinel_text errWriteLog ++ ": " ++ Error err) (Sentinel errWriteLog).

(** The loop of [logErrors]: it returns at the first failed write. *)
Fixpoint writeLines (logFile : Handle) (errs : list error) : M (option error) :=
  match errs with
  | [] => ret None
  | e :: rest =>
      r <- WriteString logFile (Error e ++ newline) ;;
      match r with
      | Some err => ret (Some (wrapWriteLog err))
      | None => writeLines logFile rest
      end
  end.

Definition logErrors (errs : list error) : M (string * option error) :=
  now <- time_Now ;;
  let logFileName := Join ["."; logPath; Format now logFileNameFormat ++ ".log"] in
  r <- OpenFile logFileName (Z.lor O_CREATE O_APPEND) 384 ;;
  match r with
  | inr err => ret (logFileName, Some (wrapWriteLog err))
  | inl logFile =>
      r <- writeLines logFile errs ;;
      match r with
      | Some err => ret (logFileName, Some err)
      | None => ret (logFileName, None)
      end
  end.

Definition showErrors (logFileName : string) (errs : list error) : M (option error) :=
  Print errFormat ("found " ++ format_d (Z.of_nat (List.length errs)) ++ " errors" ++ newline) ;;;
  t <- prompt_Input "Continue (errored files will be skipped)? [Y/n/s = show files] " ;;
  Print errFormat ("logged errors in file " ++ logFileName ++ newline) ;;;
  if ToLower t =? "n" then ret (Some (Sentinel errAbortedByUser))
  else if ToLower t =? "s" then
         for_each (fun e => Println errFormat (Error e)) errs ;;; ret None
       else ret None.

Definition showAndLogErrors (errs : list error) : M (option error) :=
  r <- logErrors errs ;;
  match r with
  | (_, Some err) => ret (Some err)
  | (logFileName, None) => showErrors logFileName errs
  end.

End OnPlatform.

End Runtime.

Import Runtime.
Local Open Scope go_scope.

(** Conversions to the 64-bit integer types *)
Definition int64 (z : Z) : Z := ((z + 2 ^ 63) mod 2 ^ 64 - 2 ^ 63)%Z.
Definition uint64 (z : Z) : Z := (z mod 2 ^ 64)%Z.

(** ** Package main, the revision that asks "Start Sync?" in [snycFiles] *)

Module Sync1.

Section Run.

Variable Filter : Type.

(** The calls into other packages: [osutils.FileOrPathExists],
    [mp3files.GetFileList], [transform.Do] (here with three arguments),
    [os.Lstat], [sync.File.IsInSync], [sync.Files.SpaceNeeded] (an int64),
    [disk.GetInfo] (the field [Free], a uint64), [sync.Do] (its result
    may depend on what happened before) and [humanize.Bytes]. *)
Record Env : Type := {
  FileOrPathExists : string -> bool;
  GetFileList : string -> Filter -> list File + error;
  transform_Do : string -> string -> File -> string * option error;
  Lstat : string -> FileInfo + error;
  IsInSync : sync.File_ -> bool;
  SpaceNeeded : list sync.File_ -> Z;
  disk_GetInfo : string -> Z + error;
  sync_Do : sync.File_ -> list Event -> option error;
  humanize_Bytes : Z -> string
}.

Variable pf : Platform.
Variable env : Env.

Definition readFileList (path : string) (filter : Filter) : list File + error :=
  match GetFileList env path filter with
  | inr err => inr err
  | inl fileList => inl fileList
  end.

(** The body of the loop of [diff], on the two slices it appends to. *)
Definition diff_body (destination source : string)
    (acc : list sync.File_ * list error) (v : File) : list sync.File_ * list error :=
  let (syncFiles, errs) := acc in
  match transform_Do env destination source v with
  | (_, Some err) => (syncFiles, errs ++ [err])%list
  | (destinatonFileName, None) =>
      let stat :=
        if FileOrPathExists env destinatonFileName
        then match Lstat env destinatonFileName with
             | inl info => inl (Some info)
             | inr err => inr err
             end
        else inl None in
      match stat with
      | inr err => (syncFiles, errs ++ [err])%list
      | inl info =>
          let destFile := {| Name := destinatonFileName; Info := info |} in
          let f := {| sync.Source := v; sync.Destination := destFile |} in
          if negb (IsInSync env f) then ((syncFiles ++ [f])%list, errs)
          else (syncFiles, errs)
      end
  end.

Definition diff (fileList : list File) (destination source : string)
  : list sync.File_ * list error :=
  fold_left (diff_body destination source) fileList ([], []).

Definition listDiff (files : list sync.File_) : M unit :=
  Print listFormat ("Total files to sync: " ++ format_d (Z.of_nat (List.length files))
                      ++ newline) ;;;
  t <- prompt_Input "Show Diff? [Y/n] " ;;
  if negb (ToLower t =? "n")
  then for_each (fun v => Println listFormat (Name (sync.Destination v))) files
  else ret tt.

(** One call of [sync.Do] *)
Definition call_sync_Do (v : sync.File_) : M (option error) := fun w =>
  let r := sync_Do env v (trace w) in
  (r, snd (emit (EvCopy v r) w)).

(** The loop of [snycFiles], on the slice [errs] it appends to. *)
Fixpoint copyAll (files : list sync.File_) (errs : list error) : M (list error) :=
  match files with
  | [] => ret errs
  | v :: rest =>
      r <- call_sync_Do v ;;
      match r with
      | Some err => copyAll rest (errs ++ [err])%list
      | None => copyAll rest errs
      end
  end.

Definition snycFiles (files : list sync.File_) : M (list error) :=
  let errs := [] in
  t <- prompt_Input "Start Sync? [Y/n] " ;;
  if ToLower t =? "n" then ret (errs ++ [Sentinel errAbortedByUser])%list
  else copyAll files errs.

Definition diskSpace (files : list sync.File_) (destination : string) : M (option error) :=
  match disk_GetInfo env destination with
  | inr err => ret (Some err)
  | inl free =>
      let needed := SpaceNeeded env files in
      let left := int64 (int64 free - needed) in
      let neededDisplay :=
        if (needed <? 0)%Z then "-" ++ humanize_Bytes env (uint64 (int64 (needed * -1)))
        else humanize_Bytes env (uint64 needed) in
      let leftDisplay :=
        if (left <? 0)%Z then "-" ++ humanize_Bytes env (uint64 (int64 (left * -1)))
        else humanize_Bytes env (uint64 left) in
      Print listFormat ("Free Disk Space: " ++ humanize_Bytes env free ++ newline) ;;;
      Print listFormat ("Disk Space Needed: " ++ neededDisplay ++ newline) ;;;
      Print listFormat ("Disk Space Left: " ++ leftDisplay ++ newline) ;;;
      if (left <? 1)%Z
      then ret (Some (ErrNew ("not enough free disk space, need "
                                ++ format_d (int64 (left * -1)) ++ " more bytes")))
      else ret None
  end.

(** The end of [do], from the call of [snycFiles] on.  The block under
    [len(errs) > 1] either returns (left) or falls through with the new
    value of [globErr] (right). *)
Definition do_sync (globErr : bool) (syncFiles : list sync.File_) : M (option error) :=
  errs <- snycFiles syncFiles ;;
  r <- (if (1 <? List.length errs)%nat then
          if errors_Is (hd (ErrNew "") errs) errAbortedByUser
          then ret (inl (hd (ErrNew "") errs))
          else
            r <- logErrors pf errs ;;
            match r with
            | (_, Some err) => ret (inl err)
            | (logFileName, None) =>
                Print errFormat ("found " ++ format_d (Z.of_nat (List.length errs))
                                   ++ " errors" ++ newline) ;;;
                Print errFormat ("logged errors in file " ++ logFileName ++ newline) ;;;
                ret (inr true)
            end
        else ret (inr globErr)) ;;
  match r with
  | inl err => ret (Some err)
  | inr globErr =>
      if globErr then ret (Some (ErrNew "see log for more details"))
      else ret None
  end.

Definition do (conf : config.Config Filter) : M (option error) :=
  if negb (FileOrPathExists env (config.Source conf)) then
    ret (Some (ErrWrap (sentinel_text errPathNotExisting ++ ": " ++ config.Source conf)
                 (Sentinel errPathNotExisting)))
  else if negb (FileOrPathExists env (config.Destination conf)) then
    ret (Some (ErrWrap (sentinel_text errPathNotExisting ++ ": " ++ config.Destination conf)
                 (Sentinel errPathNotExisting)))
  else
    match readFileList (config.Source conf) (config.Filter_ conf) with
    | inr err => ret (Some err)
    | inl fileList =>
        let (syncFiles, errs) := diff fileList (config.Destination conf) (config.Source conf) in
        '(early, globErr) <-
          (if (0 <? List.length errs)%nat
           then r <- showAndLogErrors pf errs ;; ret (r, true)
           else ret (None, false)) ;;
        match early with
        | Some err => ret (Some err)
        | None =>
            listDiff syncFiles ;;;
            r <- diskSpace syncFiles (config.Destination conf) ;;
            match r with
            | Some err => ret (Some err)
            | None => do_sync globErr syncFiles
            end
        end
    end.

End Run.

End Sync1.

(** ** Package main, the revision that asks "Start Sync?" in [do] *)

Module Sync2.

(** What a scanning goroutine sends on its channel *)
Record FileChannel : Type := { Files : list File; Err : option error }.

(** [filesync.DiskSpace]: three texts ready for display *)
Record DiskSpace : Type := { Free : string; Needed : string; Left : string }.

Inductive FilterKey : Type := KeyWhitelist | KeyBlacklist.

Section Run.

Variable Filter : Type.
Variable ConfigTag : Type.
Variable Transformed : Type.

(** The functions of this revision that live in other files:
    [readFileList] (what it sends on the channel), [Filter.MP3Tag],
    [transform.Do] on the whole list, [diff],
    [filesync.CalculateDiskSpace] and [filesync.Do].  For [listDiff] the
    text of the other revision is used. *)
Record Env : Type := {
  readFileList : string -> option Filter -> FileChannel;
  MP3Tag : Filter -> FilterKey -> ConfigTag;
  transform_Do : list File -> string -> string -> ConfigTag -> ConfigTag
                 -> Transformed * list error;
  diff : Transformed -> list File -> list sync.File_;
  CalculateDiskSpace : list sync.File_ -> string -> DiskSpace * option error;
  filesync_Do : list sync.File_ -> list Event -> list error
}.

Variable pf : Platform.
Variable env : Env.

(** One call of [filesync.Do] *)
Definition call_filesync_Do (files : list sync.File_) : M (list error) := fun w =>
  let errs := filesync_Do env files (trace w) in
  (errs, snd (emit (EvSync files errs) w)).

(** The two scans run as goroutines; [do] receives the source result
    first, then the destination result. *)
Definition do (conf : config.Config Filter) : M (option error) :=
  let sourceResult := readFileList env (config.Source conf) (Some (config.Filter_ conf)) in
  let destinationResult := readFileList env (config.Destination conf) None in
  match Err sourceResult with
  | Some err => ret (Some err)
  | None =>
  match Err destinationResult with
  | Some err => ret (Some err)
  | None =>
      let wl := MP3Tag env (config.Filter_ conf) KeyWhitelist in
      let bl := MP3Tag env (config.Filter_ conf) KeyBlacklist in
      let (transformedSource, errs) :=
        transform_Do env (Files sourceResult) (config.Destination conf)
          (config.Source conf) wl bl in
      '(early, globErr) <-
        (if (0 <? List.length errs)%nat
         then r <- showAndLogErrors pf errs ;; ret (r, true)
         else ret (None, false)) ;;
      match early with
      | Some err => ret (Some err)
      | None =>
          let syncFiles := diff env transformedSource (Files destinationResult) in
          Sync1.listDiff syncFiles ;;;
          match CalculateDiskSpace env syncFiles (config.Destination conf) with
          | (_, Some err) => ret (Some err)
          | (ds, None) =>
              Print listFormat ("Free Disk Space: " ++ Free ds ++ newline) ;;;
              Print listFormat ("Disk Space Needed: " ++ Needed ds ++ newline) ;;;
              Print listFormat ("Disk Space Left: " ++ Left ds ++ newline) ;;;
              t <- prompt_Input "Start Sync? [Y/n] " ;;
              if ToLower t =? "n" then ret (Some (Sentinel errAbortedByUser))
              else
                errs <- call_filesync_Do syncFiles ;;
                r <- (if (1 <? List.length errs)%nat then
                        if errors_Is (hd (ErrNew "") errs) errAbortedByUser
                        then ret (inl (hd (ErrNew "") errs))
                        else
                          r <- logErrors pf errs ;;
                          match r with
                          | (_, Some err) => ret (inl err)
                          | (logFileName, None) =>
                              Print errFormat
                                ("found " ++ format_d (Z.of_nat (List.length errs))
                                   ++ " errors" ++ newline) ;;;
                              Print errFormat
                                ("logged errors in file " ++ logFileName ++ newline) ;;;
                              ret (inr true)
                          end
                      else ret (inr globErr)) ;;
                match r with
                | inl err => ret (Some err)
                | inr globErr =>
                    if globErr then ret (Some (ErrNew "see log for more details"))
                    else ret None
                end
          end
      end
  end
  end.

End Run.

End Sync2.

(** ** Definitions used to state the properties *)

(** *** The substitution table, byte by byte *)

(** The substitution table read one byte at a time: the value of the first
    entry whose key is that byte. *)
Fixpoint lookup_byte (table : list (string * string)) (c : ascii) : option string :=
  match table with
  | [] => None
  | (k, v) :: rest => if k =? String c "" then Some v else lookup_byte rest c
  end.

Definition sanitize_byte (table : list (string * string)) (c : ascii) : string :=
  match lookup_byte table c with
  | Some v => v
  | None => String c ""
  end.

Fixpoint flat_bytes (f : ascii -> string) (s : string) : string :=
  match s with
  | "" => ""
  | String c s' => f c ++ flat_bytes f s'
  end.

(** Every byte replaced by its entry of [chars], in one pass. *)
Definition sanitize (s : string) : string := flat_bytes (sanitize_byte chars) s.

(** [sub] occurs in [s]. *)
Fixpoint contains (sub s : string) : bool :=
  match s with
  | "" => sub =? ""
  | String _ s' => prefix sub s || contains sub s'
  end.

Definition bytes_of (s : string) : list ascii := list_ascii_of_string s.

(** No byte of a replacement is a key. *)
Definition closed_table (t : list (string * string)) : Prop :=
  forall kv kv', In kv t -> In kv' t ->
    forall c, In c (bytes_of (snd kv)) -> fst kv' <> String c "".

Definition closed_tableb (t : list (string * string)) : bool :=
  forallb (fun kv =>
    forallb (fun kv' =>
      forallb (fun c => negb (fst kv' =? String c "")) (bytes_of (snd kv))) t) t.

Definition one_byte_keys (t : list (string * string)) : Prop :=
  Forall (fun kv => String.length (fst kv) = 1) t.

(** *** Tags and files of the examples *)

Definition queen : Tag :=
  {| Artist := "Queen"; Album := "Greatest Hits"; Year := "1981";
     Title := "Bohemian Rhapsody"; TextFrames := [("TPOS", ""); ("TRCK", "5")] |}.

Definition no_album_tag : Tag :=
  {| Artist := "Queen"; Album := ""; Year := "1981";
     Title := "Bohemian Rhapsody"; TextFrames := [] |}.

(** The reading of C3 that the code refutes: with an empty album the year
    stays out of the file name. *)
Definition year_gated_by_album : Prop :=
  forall order tag ext,
    Permutation order chars -> Album tag = "" -> Year tag <> "" ->
    contains (Year tag) (fst (getFileName order tag ext)) = false.

(** What [getSubFolder] makes of the first byte of the first segment. *)
Definition bucket (b : ascii) : string :=
  let subFolder := ToUpper (string_of_byte b) in
  if negb (MatchString_AZ subFolder) then numericSubfolder else subFolder.

(** A filter as a list of artists, to run the theorem on. *)
Definition artist_in (artists : list string) (tag : Tag) : bool :=
  existsb (String.eqb (Artist tag)) artists.

Definition queen_file : File :=
  {| Name := "/music/queen/05.mp3"; Info := Some {| InfoName := "05.mp3"; Size := 4096 |} |}.

(** *** Traces *)

Definition start_question : string := "Start Sync? [Y/n] ".

(** A copy: one call of [sync.Do] or of [filesync.Do]. *)
Definition is_copy (e : Event) : bool :=
  match e with
  | EvCopy _ _ | EvSync _ _ => true
  | _ => false
  end.

Definition is_start_prompt (e : Event) : bool :=
  match e with
  | EvPrompt q _ => q =? start_question
  | _ => false
  end.

(** Neither a copy nor the question whether to start. *)
Definition quiet (e : Event) : bool := negb (is_copy e) && negb (is_start_prompt e).

(** A computation that only adds quiet events to the trace. *)
Definition Quiet {A : Type} (m : M A) : Prop :=
  forall w, exists evs, trace (snd (m w)) = (trace w ++ evs)%list /\ forallb quiet evs = true.

(** A computation that leaves the trace alone. *)
Definition Silent {A : Type} (m : M A) : Prop :=
  forall w, trace (snd (m w)) = trace w.

(** A computation that only adds quiet events and whose result satisfies
    [P]. *)
Definition Post {A : Type} (m : M A) (P : A -> Prop) : Prop :=
  forall w, exists evs,
    trace (snd (m w)) = (trace w ++ evs)%list /\ forallb quiet evs = true /\ P (fst (m w)).

(** *** Disk space *)

Definition space_left (free needed : Z) : Z := int64 (int64 free - needed).

Definition short_of_space (left : Z) : error :=
  ErrNew ("not enough free disk space, need " ++ format_d (int64 (left * -1)) ++ " more bytes").

(** *** The copy loop *)

Definition add_trace (w : World) (evs : list Event) : World :=
  {| answers := answers w; ticks := ticks w; files := files w;
     trace := (trace w ++ evs)%list |}.

(** What one call of [sync.Do] left in the trace, and the errors among a
    list of such outcomes. *)
Definition copy_event (o : sync.File_ * option error) : Event := EvCopy (fst o) (snd o).

Fixpoint failed (outcomes : list (sync.File_ * option error)) : list error :=
  match outcomes with
  | [] => []
  | (_, Some err) :: rest => err :: failed rest
  | (_, None) :: rest => failed rest
  end.

Definition is_failure (o : sync.File_ * option error) : bool :=
  match snd o with Some _ => true | None => false end.

(** *** A small library to run the command on *)

Definition song (name : string) (size : Z) : File :=
  {| Name := "/music/abba/" ++ name; Info := Some {| InfoName := name; Size := size |} |}.

Definition base_name (f : File) : string :=
  match Info f with Some info => InfoName info | None => "" end.

Definition plan_entry (name : string) (size : Z) : sync.File_ :=
  {| sync.Source := song name size;
     sync.Destination := {| Name := "/player/A/" ++ name; Info := None |} |}.

Definition source_size (f : sync.File_) : Z :=
  match Info (sync.Source f) with Some info => Size info | None => 0%Z end.

(** A source tree with the given songs, an empty player with [free] bytes
    left, and copies that fail for the names [bad] picks. *)
Definition demo_env (songs : list File) (free : Z) (bad : string -> bool) : Sync1.Env unit :=
  {| Sync1.FileOrPathExists := fun p => (p =? "/music") || (p =? "/player");
     Sync1.GetFileList := fun _ _ => inl songs;
     Sync1.transform_Do := fun dst _ f => (Join [dst; "A"; base_name f], None);
     Sync1.Lstat := fun p => inr (ErrNew ("lstat " ++ p ++ ": no such file or directory"));
     Sync1.IsInSync := fun _ => false;
     Sync1.SpaceNeeded := fun plan => fold_left (fun n f => (n + source_size f)%Z) plan 0%Z;
     Sync1.disk_GetInfo := fun _ => inl free;
     Sync1.sync_Do := fun f _ =>
       if bad (base_name (sync.Source f))
       then Some (ErrNew ("copy " ++ Name (sync.Source f) ++ ": input/output error"))
       else None;
     Sync1.humanize_Bytes := format_d |}.

Definition demo_conf : config.Config unit :=
  {| config.Source := "/music"; config.Destination := "/player"; config.Filter_ := tt |}.

Definition noon : Time :=
  {| year := 2021; month := 3; day := 9; hour := 12; minute := 0; second := 7 |}.

Definition demo_platform (append_writes : bool) : Platform :=
  {| clock := fun _ => noon; append_implies_write := append_writes;
     OpenFile_fails := fun _ => None; WriteString_fails := fun _ _ => None |}.

Definition demo_world (typed : list string) : World :=
  {| answers := typed; ticks := 0; files := fun _ => None; trace := [] |}.

Definition see_log : error := ErrNew "see log for more details".

(** A second revision to run: one song, and [filesync.Do] returning the
    given errors. *)
Definition demo_env2 (copy_errs : list error) : Sync2.Env unit unit (list File) :=
  {| Sync2.readFileList := fun p _ =>
       {| Sync2.Files := if p =? "/music" then [song "a.mp3" 10] else [];
          Sync2.Err := None |};
     Sync2.MP3Tag := fun _ _ => tt;
     Sync2.transform_Do := fun files _ _ _ _ => (files, []);
     Sync2.diff := fun files _ => map (fun f => plan_entry (base_name f) 10) files;
     Sync2.CalculateDiskSpace := fun _ _ =>
       ({| Sync2.Free := "1.0 kB"; Sync2.Needed := "10 B"; Sync2.Left := "990 B" |}, None);
     Sync2.filesync_Do := fun _ _ => copy_errs |}.

Definition copy_failed : error := ErrNew "copy /music/abba/a.mp3: input/output error".

(** *** The log file *)

(** A clock reading that [time.Now] can give: four-digit year and the
    usual ranges. *)
Definition valid_time (t : Time) : Prop :=
  year t < 10 ^ 4 /\ 1 <= month t <= 12 /\ 1 <= day t <= 31
  /\ hour t < 24 /\ minute t < 60 /\ second t < 60.

(** The order of two readings of the same clock. *)
Definition time_compare (a b : Time) : comparison :=
  match Nat.compare (year a) (year b) with
  | Eq =>
      match Nat.compare (month a) (month b) with
      | Eq =>
          match Nat.compare (day a) (day b) with
          | Eq =>
              match Nat.compare (hour a) (hour b) with
              | Eq =>
                  match Nat.compare (minute a) (minute b) with
                  | Eq => Nat.compare (second a) (second b)
                  | c => c
                  end
              | c => c
              end
          | c => c
          end
      | c => c
      end
  | c => c
  end.

Definition stamp (t : Time) : string :=
  digits 4 (year t) ++ digits 2 (month t) ++ digits 2 (day t) ++ "-"
  ++ digits 2 (hour t) ++ digits 2 (minute t) ++ digits 2 (second t).

Definition log_file_name (t : Time) : string := "logs/" ++ stamp t ++ ".log".

Fixpoint log_lines (errs : list error) : string :=
  match errs with
  | [] => ""
  | e :: rest => Error e ++ newline ++ log_lines rest
  end.

Definition content (w : World) (name : string) : string :=
  match files w name with Some c => c | None => "" end.

Definition tick (w : World) : World :=
  {| answers := answers w; ticks := S (ticks w); files := files w; trace := trace w |}.

(** *** The shape of a run *)

(** How a run of the second revision can look: stopped with an error
    before the question; or the question answered "n" (in either case), no
    copy, and [errAbortedByUser]; or the question answered otherwise and
    [filesync.Do] called right after it. *)
Definition run_shape (evs : list Event) (r : option error) : Prop :=
  (forallb quiet evs = true /\ r <> None)
  \/ (exists before t,
        evs = (before ++ [EvPrompt start_question t])%list
        /\ forallb quiet before = true
        /\ ToLower t = "n" /\ r = Some (Sentinel errAbortedByUser))
  \/ (exists before t plan errs after,
        evs = (before ++ EvPrompt start_question t :: EvSync plan errs :: after)%list
        /\ forallb quiet before = true /\ forallb quiet after = true
        /\ ToLower t <> "n").

Definition Shaped (m : M (option error)) : Prop :=
  forall w, exists evs,
    trace (snd (m w)) = (trace w ++ evs)%list /\ run_shape evs (fst (m w)).

(** *** Further definitions *)

(** The byte is a key of the map of [replaceChars]. *)
Definition is_key (c : ascii) : bool :=
  match lookup_byte chars c with Some _ => true | None => false end.

(** The decision of [Do] to skip a file. *)
Definition rejected {ConfigTag : Type} (len : ConfigTag -> nat)
    (Contains : ConfigTag -> Tag -> bool) (whiteList blackList : ConfigTag) (tag : Tag) : bool :=
  ((0 <? len whiteList)%nat && negb (Contains whiteList tag))
  || ((0 <? len blackList)%nat && Contains blackList tag).

(** The world after the user has typed one line. *)
Definition pop_answer (w : World) : World :=
  {| answers := tl (answers w); ticks := ticks w; files := files w; trace := trace w |}.

(** The answers that decline: "n" in either case. *)
Definition declines (t : string) : bool := (t =? "n") || (t =? "N").

(** The answers that ask for the list of errors: "s" in either case. *)
Definition asks_to_show (t : string) : bool := (t =? "s") || (t =? "S").

Definition print_lines (wr : Writer) (lines : list string) : list Event :=
  map (fun l => EvPrint wr (l ++ newline)) lines.

(** What [diff] makes of one file. *)
Definition diff_one (Filter : Type) (env : Sync1.Env Filter) (destination source : string)
    (v : File) : list sync.File_ * list error :=
  Sync1.diff_body Filter env destination source ([], []) v.

(** The world after [logErrors] has read the clock and opened its file:
    the file is there, empty when it was missing. *)
Definition opened (w : World) (name : string) : World :=
  match files (tick w) name with
  | Some _ => tick w
  | None => set_file (tick w) name ""
  end.

(** What both revisions of [do] do with the errors of the executor. *)
Definition after_sync (pf : Platform) (globErr : bool) (errs : list error) : M (option error) :=
  r <- (if (1 <? List.length errs)%nat then
          if errors_Is (hd (ErrNew "") errs) errAbortedByUser
          then ret (inl (hd (ErrNew "") errs))
          else
            r <- logErrors pf errs ;;
            match r with
            | (_, Some err) => ret (inl err)
            | (logFileName, None) =>
                Print errFormat ("found " ++ format_d (Z.of_nat (List.length errs))
                                   ++ " errors" ++ newline) ;;;
                Print errFormat ("logged errors in file " ++ logFileName ++ newline) ;;;
                ret (inr true)
            end
        else ret (inr globErr)) ;;
  match r with
  | inl err => ret (Some err)
  | inr globErr =>
      if globErr then ret (Some (ErrNew "see log for more details"))
      else ret None
  end.

(** A computation whose result always satisfies [P]. *)
Definition Ret {A : Type} (m : M A) (P : A -> Prop) : Prop := forall w, P (fst (m w)).

(** The three lines that [diskSpace] prints. *)
Definition diskSpace_lines (Filter : Type) (env : Sync1.Env Filter) (free needed : Z)
  : list Event :=
  let left := space_left free needed in
  [ EvPrint listFormat ("Free Disk Space: " ++ Sync1.humanize_Bytes Filter env free ++ newline);
    EvPrint listFormat
      ("Disk Space Needed: "
         ++ (if (needed <? 0)%Z
             then "-" ++ Sync1.humanize_Bytes Filter env (uint64 (int64 (needed * -1)))
             else Sync1.humanize_Bytes Filter env (uint64 needed)) ++ newline);
    EvPrint listFormat
      ("Disk Space Left: "
         ++ (if (left <? 0)%Z
             then "-" ++ Sync1.humanize_Bytes Filter env (uint64 (int64 (left * -1)))
             else Sync1.humanize_Bytes Filter env (uint64 left)) ++ newline) ].

(** A library in which no tag can be read. *)
Definition demo_env_bad_tags (songs : list File) : Sync1.Env unit :=
  {| Sync1.FileOrPathExists := fun p => (p =? "/music") || (p =? "/player");
     Sync1.GetFileList := fun _ _ => inl songs;
     Sync1.transform_Do := fun _ _ f =>
       ("", Some (ErrWrap ("failed to parse mp3 tag from " ++ Name f ++ ": unsupported version")
                    (Sentinel ErrParseTag)));
     Sync1.Lstat := fun p => inr (ErrNew ("lstat " ++ p ++ ": no such file or directory"));
     Sync1.IsInSync := fun _ => false;
     Sync1.SpaceNeeded := fun plan => fold_left (fun n f => (n + source_size f)%Z) plan 0%Z;
     Sync1.disk_GetInfo := fun _ => inl 1000%Z;
     Sync1.sync_Do := fun _ _ => None;
     Sync1.humanize_Bytes := format_d |}.

(** The same for the second revision. *)
Definition demo_env2_bad_tags : Sync2.Env unit unit (list File) :=
  {| Sync2.readFileList := fun p _ =>
       {| Sync2.Files := if p =? "/music" then [song "a.mp3" 10] else [];
          Sync2.Err := None |};
     Sync2.MP3Tag := fun _ _ => tt;
     Sync2.transform_Do := fun files _ _ _ _ =>
       ([], map (fun f => ErrWrap ("failed to parse mp3 tag from " ++ Name f
                                     ++ ": unsupported version") (Sentinel ErrParseTag)) files);
     Sync2.diff := fun files _ => map (fun f => plan_entry (base_name f) 10) files;
     Sync2.CalculateDiskSpace := fun _ _ =>
       ({| Sync2.Free := "1.0 kB"; Sync2.Needed := "0 B"; Sync2.Left := "1.0 kB" |}, None);
     Sync2.filesync_Do := fun _ _ => [] |}.

(** A computation that does not read what the user types. *)
Definition KeepsAnswers {A : Type} (m : M A) : Prop :=
  forall w, answers (snd (m w)) = answers w.

(** How a run of the first revision can look: no copy and no question
    whether to start; or that question asked once, after quiet events, and
    followed by nothing at all when the answer declines. *)
Definition run_shape1 (evs : list Event) : Prop :=
  forallb quiet evs = true
  \/ (exists before t after,
        evs = (before ++ EvPrompt start_question t :: after)%list
        /\ forallb quiet before = true
        /\ (declines t = true -> after = [])).

Definition Shaped1 {A : Type} (m : M A) : Prop :=
  forall w, exists evs, trace (snd (m w)) = (trace w ++ evs)%list /\ run_shape1 evs.

(** * Properties *)

(** ** Strings *)

Lemma app_empty_r (s : string) : s ++ "" = s.
Proof. induction s as [|c s IH]; simpl; [reflexivity | now rewrite IH]. Qed.

Lemma app_assoc_str (a b c : string) : (a ++ b) ++ c = a ++ (b ++ c).
Proof. induction a as [|x a IH]; simpl; [reflexivity | now rewrite IH]. Qed.

Lemma prefix_app (a b : string) : prefix a (a ++ b) = true.
Proof.
  induction a as [|x a IH]; simpl; [now destruct b|].
  destruct (ascii_dec x x); [exact IH | congruence].
Qed.

Lemma flat_bytes_app (f : ascii -> string) (a b : string) :
  flat_bytes f (a ++ b) = flat_bytes f a ++ flat_bytes f b.
Proof.
  induction a as [|x a IH]; simpl; [reflexivity|].
  now rewrite IH, app_assoc_str.
Qed.

Lemma flat_bytes_flat_bytes (f g : ascii -> string) (s : string) :
  flat_bytes f (flat_bytes g s) = flat_bytes (fun c => flat_bytes f (g c)) s.
Proof.
  induction s as [|x s IH]; simpl; [reflexivity|].
  now rewrite flat_bytes_app, IH.
Qed.

Lemma flat_bytes_ext (f g : ascii -> string) (s : string) :
  (forall c, f c = g c) -> flat_bytes f s = flat_bytes g s.
Proof.
  intros H. induction s as [|x s IH]; simpl; [reflexivity | now rewrite H, IH].
Qed.

Lemma flat_bytes_id (f : ascii -> string) (s : string) :
  any_byte (fun c => negb (f c =? String c "")) s = false -> flat_bytes f s = s.
Proof.
  induction s as [|x s IH]; simpl; [reflexivity|].
  intros H. apply orb_false_elim in H. destruct H as [Hx Hs].
  apply negb_false_iff, String.eqb_eq in Hx. now rewrite Hx, IH.
Qed.

(** One pass of [strings.Replace] with a one-byte key is a map over the
    bytes. *)
Lemma replaceFrom_single (k : ascii) (v : string) (n : Z) (s : string) :
  (n < 0)%Z ->
  replaceFrom (String k "") v O n s
  = flat_bytes (fun c => if Ascii.eqb c k then v else String c "") s.
Proof.
  revert n. induction s as [|c s IH]; intros n Hn; simpl; [reflexivity|].
  destruct (Z.eqb_spec n 0) as [E|_]; [lia|].
  destruct (ascii_dec k c) as [->|Hne].
  - rewrite Ascii.eqb_refl.
    assert (Hp : prefix "" s = true) by (destruct s; reflexivity).
    rewrite Hp. f_equal. apply IH. lia.
  - destruct (Ascii.eqb_spec c k) as [->|_]; [congruence|].
    simpl. now rewrite IH.
Qed.

(** ** The substitution table *)

Lemma closed_tableb_sound (t : list (string * string)) :
  closed_tableb t = true -> closed_table t.
Proof.
  unfold closed_tableb, closed_table. intros H kv kv' Hkv Hkv' c Hc.
  rewrite forallb_forall in H. specialize (H kv Hkv).
  rewrite forallb_forall in H. specialize (H kv' Hkv').
  rewrite forallb_forall in H. specialize (H c Hc).
  apply negb_true_iff in H. now apply String.eqb_neq.
Qed.

Lemma chars_closed : closed_table chars.
Proof. apply closed_tableb_sound. vm_compute. reflexivity. Qed.

Lemma chars_one_byte_keys : one_byte_keys chars.
Proof. unfold one_byte_keys, chars. repeat constructor. Qed.

Lemma chars_keys_NoDup : NoDup (map fst chars).
Proof.
  unfold chars. simpl.
  repeat (constructor; [simpl; intuition discriminate|]). constructor.
Qed.

Lemma lookup_byte_None (t : list (string * string)) (c : ascii) :
  (forall kv, In kv t -> fst kv <> String c "") -> lookup_byte t c = None.
Proof.
  induction t as [|[k v] t IH]; intros H; simpl; [reflexivity|].
  destruct (String.eqb_spec k (String c "")) as [E|_].
  - exfalso. apply (H (k, v)); [now left | exact E].
  - apply IH. intros kv Hin. apply H. now right.
Qed.

Lemma lookup_byte_Some_In (t : list (string * string)) (c : ascii) (v : string) :
  lookup_byte t c = Some v -> In (String c "", v) t.
Proof.
  induction t as [|[k v'] t IH]; simpl; [discriminate|].
  destruct (String.eqb_spec k (String c "")) as [->|_].
  - intros [= ->]. now left.
  - intros H. right. now apply IH.
Qed.

Lemma In_lookup_byte (t : list (string * string)) (c : ascii) (v : string) :
  NoDup (map fst t) -> In (String c "", v) t -> lookup_byte t c = Some v.
Proof.
  induction t as [|[k v'] t IH]; simpl; [tauto|].
  intros Hnd [E|Hin].
  - injection E as -> ->. now rewrite String.eqb_refl.
  - inversion Hnd as [|? ? Hk Hnd']; subst.
    destruct (String.eqb_spec k (String c "")) as [->|_].
    + exfalso. apply Hk. change (String c "") with (fst (String c "", v)).
      now apply in_map.
    + now apply IH.
Qed.

(** The table read byte by byte does not depend on the order of its
    entries. *)
Lemma lookup_byte_perm (t1 t2 : list (string * string)) (c : ascii) :
  Permutation t1 t2 -> NoDup (map fst t2) -> lookup_byte t1 c = lookup_byte t2 c.
Proof.
  intros HP Hnd.
  assert (Hnd1 : NoDup (map fst t1)).
  { apply Permutation_NoDup with (l := map fst t2); [|exact Hnd].
    apply Permutation_map, Permutation_sym, HP. }
  destruct (lookup_byte t2 c) as [v|] eqn:E2.
  - apply In_lookup_byte; [exact Hnd1|].
    apply Permutation_in with (l := t2); [now apply Permutation_sym|].
    now apply lookup_byte_Some_In.
  - destruct (lookup_byte t1 c) as [v|] eqn:E1; [|reflexivity].
    apply lookup_byte_Some_In in E1.
    apply (Permutation_in _ HP) in E1.
    apply (In_lookup_byte _ _ _ Hnd) in E1. congruence.
Qed.

Lemma flat_bytes_fixed (t : list (string * string)) (v : string) :
  (forall c, In c (bytes_of v) -> lookup_byte t c = None) ->
  flat_bytes (sanitize_byte t) v = v.
Proof.
  induction v as [|x v IH]; simpl; intros H; [reflexivity|].
  unfold sanitize_byte at 1. rewrite (H x) by now left.
  simpl. f_equal. apply IH. intros c Hc. apply H. now right.
Qed.

(** Whatever the order of the visit, [replaceChars] on a table with one-byte
    keys whose replacements contain no key is the one-pass substitution. *)
Lemma replaceChars_flat (t : list (string * string)) :
  one_byte_keys t -> closed_table t ->
  forall s, replaceChars t s = flat_bytes (sanitize_byte t) s.
Proof.
  unfold replaceChars.
  induction t as [|[k v] t IH]; intros Hk Hc s; simpl.
  - induction s as [|x s IHs]; simpl; [reflexivity | now rewrite <- IHs].
  - inversion Hk as [|? ? Hlen Hk']; subst. simpl in Hlen.
    destruct k as [|kc [|? ?]]; try discriminate. clear Hlen.
    rewrite IH; [|exact Hk'|].
    2:{ intros kv kv' H1 H2. apply Hc; now right. }
    unfold Replace. rewrite replaceFrom_single by lia.
    rewrite flat_bytes_flat_bytes. apply flat_bytes_ext. intros c.
    unfold sanitize_byte at 2. cbn [lookup_byte].
    destruct (String.eqb_spec (String kc "") (String c "")) as [E|Hne].
    + injection E as <-. rewrite Ascii.eqb_refl. apply flat_bytes_fixed.
      intros c Hin. apply lookup_byte_None. intros kv' Hkv'.
      apply (Hc (String kc "", v) kv'); [now left | now right | exact Hin].
    + destruct (Ascii.eqb_spec c kc) as [->|_]; [congruence|].
      cbn [flat_bytes]. fold (sanitize_byte t c). now rewrite !app_empty_r.
Qed.

Lemma replaceChars_sanitize (order : list (string * string)) (s : string) :
  Permutation order chars -> replaceChars order s = sanitize s.
Proof.
  intros HP. rewrite replaceChars_flat.
  - unfold sanitize. apply flat_bytes_ext. intros c. unfold sanitize_byte.
    now rewrite (lookup_byte_perm order chars c HP chars_keys_NoDup).
  - exact (Permutation_Forall (Permutation_sym HP) chars_one_byte_keys).
  - intros kv kv' H1 H2. apply chars_closed; eapply Permutation_in; eauto.
Qed.

Lemma sanitize_app (a b : string) : sanitize (a ++ b) = sanitize a ++ sanitize b.
Proof. apply flat_bytes_app. Qed.

Lemma sanitize_sanitize (s : string) : sanitize (sanitize s) = sanitize s.
Proof.
  unfold sanitize. rewrite flat_bytes_flat_bytes. apply flat_bytes_ext. intros c.
  destruct (lookup_byte chars c) as [v|] eqn:E.
  - assert (Hv : sanitize_byte chars c = v) by (unfold sanitize_byte; now rewrite E).
    rewrite Hv. apply flat_bytes_fixed. intros c' Hc'. apply lookup_byte_None.
    intros kv' Hkv'. apply lookup_byte_Some_In in E.
    exact (chars_closed _ kv' E Hkv' c' Hc').
  - assert (Hv : sanitize_byte chars c = String c "")
      by (unfold sanitize_byte; now rewrite E).
    rewrite Hv. cbn [flat_bytes]. rewrite Hv. reflexivity.
Qed.

(** C9. [replaceChars] is idempotent: for every string, and whatever the
    orders in which the two runs visit the map, replacing a second time
    gives what the first run gave, because no replacement contains a byte
    that is a key of the table. *)
Theorem replaceChars_idempotent (order1 order2 : list (string * string)) (s : string) :
  Permutation order1 chars -> Permutation order2 chars ->
  replaceChars order2 (replaceChars order1 s) = replaceChars order1 s
  /\ closed_table chars.
Proof.
  intros H1 H2. split; [|exact chars_closed].
  rewrite (replaceChars_sanitize order1 s H1).
  rewrite (replaceChars_sanitize order2 _ H2).
  apply sanitize_sanitize.
Qed.

Lemma replaceChars_idempotent_witness :
  replaceChars (rev chars) (replaceChars chars "a/b: [c]?")
  = replaceChars chars "a/b: [c]?" /\ closed_table chars.
Proof.
  apply (replaceChars_idempotent chars (rev chars) "a/b: [c]?").
  - apply Permutation_refl.
  - apply Permutation_sym, Permutation_rev.
Defined.

(** ** The file name *)

(** C8. The tag of the example (artist Queen, album Greatest Hits, year
    1981, track 5, title Bohemian Rhapsody, empty disk frame) with the
    extension .mp3 gives exactly the file name of the example, the track
    padded to 05, whatever the order in which the map is visited. *)
Theorem getFileName_queen (order : list (string * string)) :
  Permutation order chars ->
  getFileName order queen ".mp3"
  = ("Queen - Greatest Hits (1981) - 05 - Bohemian Rhapsody.mp3", None).
Proof.
  intros HP. unfold getFileName.
  rewrite (replaceChars_sanitize order _ HP).
  vm_compute. reflexivity.
Qed.

Lemma getFileName_queen_witness :
  getFileName chars queen ".mp3"
  = ("Queen - Greatest Hits (1981) - 05 - Bohemian Rhapsody.mp3", None).
Proof. apply (getFileName_queen chars). apply Permutation_refl. Defined.

(** The name before sanitization always has the shape
    artist-and-album, year in parentheses, rest, when the year is there. *)
Lemma name_with_year (pre y : string) (disk track title ext : string) :
  exists post,
    (let name := pre ++ " (" ++ y ++ ")" in
     let name := if negb (disk =? "") then name ++ " - " ++ disk else name in
     let name :=
       if negb (track =? "") then
         let track := if (String.length track =? 1)%nat then "0" ++ track else track in
         name ++ " - " ++ track
       else name in
     name ++ " - " ++ title ++ ext)
    = pre ++ " (" ++ y ++ ")" ++ post.
Proof.
  cbv zeta.
  destruct (negb (disk =? "")), (negb (track =? "")),
    (String.length track =? 1)%nat; eexists; rewrite !app_assoc_str; reflexivity.
Qed.

Lemma sanitize_parenthesized (pre y post : string) :
  sanitize (pre ++ " (" ++ y ++ ")" ++ post)
  = sanitize pre ++ " (" ++ sanitize y ++ ")" ++ sanitize post.
Proof. now rewrite !sanitize_app. Qed.

(** C3, counterexample. A tag with the year 1981 and no album: the year is
    in the file name all the same. *)
Lemma year_without_album :
  Album no_album_tag = "" /\ Year no_album_tag <> ""
  /\ fst (getFileName chars no_album_tag ".mp3") = "Queen (1981) - Bohemian Rhapsody.mp3"
  /\ contains (Year no_album_tag) (fst (getFileName chars no_album_tag ".mp3")) = true
  /\ ~ year_gated_by_album.
Proof.
  split; [reflexivity|]. split; [discriminate|].
  split; [vm_compute; reflexivity|]. split; [vm_compute; reflexivity|].
  intros H.
  specialize (H chars no_album_tag ".mp3" (Permutation_refl _) eq_refl).
  assert (Hy : Year no_album_tag <> "") by discriminate.
  specialize (H Hy). vm_compute in H. discriminate.
Qed.

(** C3, as the code has it. The year part depends on the year alone: for
    every tag with a non-empty year, with or without an album, the file name
    is the sanitized artist (and album, when there is one), then the
    sanitized year between " (" and ")", then the rest; for every tag with
    an empty year no such part is added after the artist and album. *)
Theorem getFileName_year (order : list (string * string)) (tag : Tag) (ext : string) :
  Permutation order chars ->
  let head := Artist tag ++ (if Album tag =? "" then "" else " - " ++ Album tag) in
  (Year tag <> "" ->
   exists post, fst (getFileName order tag ext)
                = sanitize head ++ " (" ++ sanitize (Year tag) ++ ")" ++ sanitize post)
  /\ (Year tag = "" ->
      exists post, fst (getFileName order tag ext) = sanitize head ++ sanitize post
                   /\ prefix " - " post = true).
Proof.
  intros HP head.
  assert (Hhead : (if negb (Album tag =? "") then Artist tag ++ " - " ++ Album tag
                   else Artist tag) = head).
  { unfold head. destruct (Album tag =? ""); simpl; [now rewrite app_empty_r | reflexivity]. }
  unfold getFileName. cbv zeta. rewrite Hhead. cbn [fst].
  rewrite (replaceChars_sanitize order _ HP).
  split; intros Hy.
  - apply String.eqb_neq in Hy. rewrite Hy. cbn [negb].
    destruct (name_with_year head (Year tag) (GetTextFrame (TextFrames tag) frameIDDisk)
                (GetTextFrame (TextFrames tag) frameIDTrack) (Title tag) ext) as [post Hpost].
    cbv zeta in Hpost. exists post. rewrite Hpost. apply sanitize_parenthesized.
  - rewrite Hy. cbn [String.eqb negb].
    destruct (negb (GetTextFrame (TextFrames tag) frameIDDisk =? "")),
      (negb (GetTextFrame (TextFrames tag) frameIDTrack =? "")),
      (String.length (GetTextFrame (TextFrames tag) frameIDTrack) =? 1)%nat;
      eexists; (split; [rewrite ?app_assoc_str, sanitize_app; reflexivity | apply prefix_app]).
Qed.

Lemma getFileName_year_witness :
  (exists post, fst (getFileName chars no_album_tag ".mp3")
                = sanitize "Queen" ++ " (" ++ sanitize "1981" ++ ")" ++ sanitize post)
  /\ (exists post, fst (getFileName chars
                          {| Artist := "Queen"; Album := "Live"; Year := "";
                             Title := "Intro"; TextFrames := [] |} ".mp3")
                   = sanitize "Queen - Live" ++ sanitize post
                   /\ prefix " - " post = true).
Proof.
  split.
  - apply (getFileName_year chars no_album_tag ".mp3" (Permutation_refl _)). discriminate.
  - apply (getFileName_year chars {| Artist := "Queen"; Album := "Live"; Year := "";
                                     Title := "Intro"; TextFrames := [] |} ".mp3"
             (Permutation_refl _)). reflexivity.
Defined.

(** ** The subfolder *)

Lemma bucket_cases (b : ascii) :
  bucket b = numericSubfolder
  \/ exists c, bucket b = String c "" /\ byte_in "A" "Z" c = true.
Proof.
  destruct b as [[|] [|] [|] [|] [|] [|] [|] [|]];
    first [ left; vm_compute; reflexivity
          | right; eexists; split; vm_compute; reflexivity ].
Qed.

Lemma splitFrom_hd (sp : string) (s : string) :
  forall skip cur, exists x rest, splitFrom sp skip cur s = (cur ++ x) :: rest.
Proof.
  induction s as [|c s IH]; intros skip cur; cbn [splitFrom].
  - exists "", []. now rewrite app_empty_r.
  - destruct skip as [|k].
    + destruct (prefix sp (String c s)).
      * exists "", (splitFrom sp (String.length sp - 1) "" s).
        rewrite app_empty_r. reflexivity.
      * destruct (IH O (cur ++ String c "")) as (x & rest & E).
        exists (String c x), rest. rewrite E, app_assoc_str. reflexivity.
    + apply IH.
Qed.

Lemma Split_first_empty (rel : string) :
  hd "" (Split rel sep) = "" <-> rel = "" \/ prefix sep rel = true.
Proof.
  unfold Split. destruct rel as [|c s].
  - simpl. tauto.
  - cbn [splitFrom]. destruct (prefix sep (String c s)) eqn:E.
    + simpl. tauto.
    + destruct (splitFrom_hd sep s O ("" ++ String c "")) as (x & rest & Hx).
      rewrite Hx. simpl. split; [discriminate | intros [H|H]; discriminate].
Qed.

Lemma replaceFrom_skip_all (old new : string) (n : Z) (s : string) :
  replaceFrom old new (String.length s) n s = "".
Proof. induction s as [|c s IH]; simpl; [reflexivity | exact IH]. Qed.

Lemma prefix_refl (s : string) : prefix s s = true.
Proof. rewrite <- (app_empty_r s) at 2. apply prefix_app. Qed.

(** Removing the first occurrence of a string from itself leaves nothing. *)
Lemma Replace_self (old : string) : old <> "" -> Replace old old "" 1 = "".
Proof.
  intros Hne. unfold Replace. destruct old as [|c s]; [congruence|].
  cbn [replaceFrom]. rewrite prefix_refl.
  change (1 =? 0)%Z with false. cbn iota.
  replace (String.length (String c s) - 1) with (String.length s)
    by (cbn [String.length]; lia).
  cbn [append]. apply replaceFrom_skip_all.
Qed.

Lemma getSubFolder_unfold (fileName source : string) :
  getSubFolder fileName source
  = match get 0 (hd "" (Split (Replace fileName (source ++ sep) "" 1) sep)) with
    | Some b => Returned (bucket b)
    | None => Panicked "index out of range [0] with length 0"
    end.
Proof.
  unfold getSubFolder.
  destruct (splitFrom_hd sep (Replace fileName (source ++ sep) "" 1) O "")
    as (x & rest & E).
  unfold Split. rewrite E. cbn [List.length Nat.ltb Nat.leb hd].
  destruct (get 0 ("" ++ x)); reflexivity.
Qed.

(** C10. [getSubFolder] takes the first byte of the first segment of the
    path relative to the source without looking whether there is one.  When
    that segment is empty (the relative path is empty or starts with the
    separator: so when the file name is the source plus a separator, and
    when the file name starts with a separator and not with the source
    prefix) the index is out of range.  In every other case the function
    returns a single capital letter or the numeric bucket, and in no case
    the default sub folder. *)
Theorem getSubFolder_cases (fileName source : string) :
  let rel := Replace fileName (source ++ sep) "" 1 in
  let first := hd "" (Split rel sep) in
  (first = "" ->
   getSubFolder fileName source = Panicked "index out of range [0] with length 0")
  /\ (first <> "" ->
      exists r, getSubFolder fileName source = Returned r
                /\ (r = numericSubfolder
                    \/ exists c, r = String c "" /\ byte_in "A" "Z" c = true))
  /\ getSubFolder fileName source <> Returned defaultSubfolder
  /\ (first = "" <-> rel = "" \/ prefix sep rel = true)
  /\ getSubFolder (source ++ sep) source
     = Panicked "index out of range [0] with length 0"
  /\ (prefix sep fileName = true -> prefix (source ++ sep) fileName = false ->
      first = "").
Proof.
  intros rel first.
  assert (Hnodef : forall b, bucket b <> defaultSubfolder).
  { intros b. destruct (bucket_cases b) as [E|(c & E & _)]; rewrite E; discriminate. }
  split; [|split; [|split; [|split; [|split]]]].
  - intros H. rewrite getSubFolder_unfold. fold rel. fold first. now rewrite H.
  - intros H. rewrite getSubFolder_unfold. fold rel. fold first.
    destruct first as [|b s]; [congruence|]. cbn [get].
    exists (bucket b). split; [reflexivity | apply bucket_cases].
  - rewrite getSubFolder_unfold.
    destruct (get 0 _); [|discriminate].
    intros [= E]. exact (Hnodef _ E).
  - apply Split_first_empty.
  - rewrite getSubFolder_unfold, Replace_self; [reflexivity|].
    destruct source; discriminate.
  - intros Hsep Hpre. apply Split_first_empty. right.
    unfold rel, Replace. destruct fileName as [|c s]; [discriminate|].
    cbn [replaceFrom]. change (1 =? 0)%Z with false. rewrite Hpre. cbn iota.
    unfold sep in *. cbn [prefix] in *.
    destruct (ascii_dec PathSeparator c); [|discriminate].
    now destruct (replaceFrom _ _ _ _ s).
Qed.

Lemma getSubFolder_cases_witness :
  getSubFolder "/music/" "/music" = Panicked "index out of range [0] with length 0"
  /\ (exists r, getSubFolder "/music/abba/song.mp3" "/music" = Returned r
                /\ (r = numericSubfolder
                    \/ exists c, r = String c "" /\ byte_in "A" "Z" c = true))
  /\ hd "" (Split (Replace "/other/song.mp3" ("/music" ++ sep) "" 1) sep) = "".
Proof.
  split; [|split].
  - pose proof (getSubFolder_cases "/music/" "/music") as H. cbv zeta in H.
    destruct H as (H & _). apply H. reflexivity.
  - pose proof (getSubFolder_cases "/music/abba/song.mp3" "/music") as H. cbv zeta in H.
    destruct H as (_ & H & _). apply H. discriminate.
  - pose proof (getSubFolder_cases "/other/song.mp3" "/music") as H. cbv zeta in H.
    destruct H as (_ & _ & _ & _ & _ & H). apply H; reflexivity.
Defined.

(** ** The filter *)

(** C5. The black list wins: for every file whose tag could be loaded and
    matches a non-empty black list, [Do] returns the empty path and no
    error, whatever the white list is and whether the tag matches it. *)
Theorem Do_blacklist_wins (loadTag : File -> Tag + error) (ConfigTag : Type)
    (len : ConfigTag -> nat) (Contains : ConfigTag -> Tag -> bool)
    (order : list (string * string)) (destination source : string) (f : File)
    (tag : Tag) (whiteList blackList : ConfigTag) :
  loadTag f = inl tag ->
  0 < len blackList ->
  Contains blackList tag = true ->
  Do loadTag ConfigTag len Contains order destination source f whiteList blackList
  = Returned ("", None).
Proof.
  intros Hload Hlen Hmatch. unfold Do. rewrite Hload, Hmatch.
  apply Nat.ltb_lt in Hlen. rewrite Hlen. cbn [andb].
  now rewrite orb_true_r.
Qed.

Lemma Do_blacklist_wins_witness :
  Do (fun _ => inl queen) (list string) (@List.length string) artist_in chars
     "/player" "/music" queen_file ["Queen"; "Abba"] ["Queen"]
  = Returned ("", None).
Proof.
  apply (Do_blacklist_wins (fun _ => inl queen) (list string) (@List.length string)
           artist_in chars "/player" "/music" queen_file queen ["Queen"; "Abba"] ["Queen"]).
  - reflexivity.
  - simpl. lia.
  - reflexivity.
Defined.

(** Without the black list the same file is transformed. *)
Example Do_queen :
  Do (fun _ => inl queen) (list string) (@List.length string) artist_in chars
     "/player" "/music" queen_file ["Queen"; "Abba"] []
  = Returned ("/player/Q/Queen - Greatest Hits (1981) - 05 - Bohemian Rhapsody.mp3", None).
Proof. vm_compute. reflexivity. Qed.

(** ** Traces *)

Lemma Silent_Quiet {A : Type} (m : M A) : Silent m -> Quiet m.
Proof. intros H w. exists []. now rewrite H, app_nil_r. Qed.

Lemma Quiet_ret {A : Type} (a : A) : Quiet (ret a).
Proof. intros w. exists []. simpl. now rewrite app_nil_r. Qed.

Lemma Quiet_bind {A B : Type} (m : M A) (k : A -> M B) :
  Quiet m -> (forall a, Quiet (k a)) -> Quiet (bind m k).
Proof.
  intros Hm Hk w. unfold bind.
  destruct (Hm w) as (e1 & E1 & Q1). destruct (m w) as [a w1]. simpl in E1.
  destruct (Hk a w1) as (e2 & E2 & Q2).
  exists (e1 ++ e2)%list. rewrite E2, E1, app_assoc, forallb_app, Q1, Q2. now split.
Qed.

Lemma Quiet_emit (e : Event) : quiet e = true -> Quiet (emit e).
Proof. intros H w. exists [e]. simpl. now rewrite H. Qed.

Lemma Quiet_Print (wr : Writer) (text : string) : Quiet (Print wr text).
Proof. now apply Quiet_emit. Qed.

Lemma Quiet_prompt (q : string) : q <> start_question -> Quiet (prompt_Input q).
Proof.
  intros H w. exists [EvPrompt q (hd "" (answers w))]. simpl.
  apply String.eqb_neq in H. unfold quiet. simpl. now rewrite H.
Qed.

Lemma Quiet_for_each {A : Type} (body : A -> M unit) (l : list A) :
  (forall x, Quiet (body x)) -> Quiet (for_each body l).
Proof.
  intros H. induction l as [|x l IH]; simpl.
  - apply Quiet_ret.
  - apply Quiet_bind; [apply H | intros _; exact IH].
Qed.

Lemma Silent_bind {A B : Type} (m : M A) (k : A -> M B) :
  Silent m -> (forall a, Silent (k a)) -> Silent (bind m k).
Proof.
  intros Hm Hk w. unfold bind. specialize (Hm w). destruct (m w) as [a w1].
  simpl in Hm. now rewrite Hk.
Qed.

Lemma Silent_ret {A : Type} (a : A) : Silent (ret a).
Proof. intros w. reflexivity. Qed.

Lemma Silent_time_Now (pf : Platform) : Silent (time_Now pf).
Proof. intros w. reflexivity. Qed.

Lemma Silent_OpenFile (pf : Platform) (name : string) (flag perm : Z) :
  Silent (OpenFile pf name flag perm).
Proof.
  intros w. unfold OpenFile.
  destruct (OpenFile_fails pf name); [reflexivity|].
  destruct (files w name); [reflexivity|].
  destruct (negb _); reflexivity.
Qed.

Lemma Silent_WriteString (pf : Platform) (h : Handle) (data : string) :
  Silent (WriteString pf h data).
Proof.
  intros w. unfold WriteString.
  destruct (negb (h_writable h)); [reflexivity|].
  destruct (WriteString_fails pf (h_name h) data); reflexivity.
Qed.

Lemma Silent_writeLines (pf : Platform) (h : Handle) (errs : list error) :
  Silent (writeLines pf h errs).
Proof.
  induction errs as [|e errs IH]; simpl.
  - apply Silent_ret.
  - apply Silent_bind; [apply Silent_WriteString|].
    intros [err|]; [apply Silent_ret | exact IH].
Qed.

Lemma Silent_logErrors (pf : Platform) (errs : list error) : Silent (logErrors pf errs).
Proof.
  unfold logErrors.
  apply Silent_bind; [apply Silent_time_Now | intros now].
  apply Silent_bind; [apply Silent_OpenFile | intros [h|err]]; [|apply Silent_ret].
  apply Silent_bind; [apply Silent_writeLines | intros [err|]]; apply Silent_ret.
Qed.

Lemma Quiet_showErrors (logFileName : string) (errs : list error) :
  Quiet (showErrors logFileName errs).
Proof.
  unfold showErrors.
  apply Quiet_bind; [apply Quiet_Print | intros _].
  apply Quiet_bind; [apply Quiet_prompt; discriminate | intros t].
  apply Quiet_bind; [apply Quiet_Print | intros _].
  destruct (ToLower t =? "n"); [apply Quiet_ret|].
  destruct (ToLower t =? "s"); [|apply Quiet_ret].
  apply Quiet_bind; [|intros _; apply Quiet_ret].
  apply Quiet_for_each. intros e. apply Quiet_Print.
Qed.

Lemma Quiet_showAndLogErrors (pf : Platform) (errs : list error) :
  Quiet (showAndLogErrors pf errs).
Proof.
  unfold showAndLogErrors.
  apply Quiet_bind; [apply Silent_Quiet, Silent_logErrors|].
  intros [name [err|]]; [apply Quiet_ret | apply Quiet_showErrors].
Qed.

Lemma Quiet_listDiff (files : list sync.File_) : Quiet (Sync1.listDiff files).
Proof.
  unfold Sync1.listDiff.
  apply Quiet_bind; [apply Quiet_Print | intros _].
  apply Quiet_bind; [apply Quiet_prompt; discriminate | intros t].
  destruct (negb _); [|apply Quiet_ret].
  apply Quiet_for_each. intros v. apply Quiet_Print.
Qed.

Lemma Quiet_diskSpace (Filter : Type) (env : Sync1.Env Filter)
    (files : list sync.File_) (destination : string) :
  Quiet (Sync1.diskSpace Filter env files destination).
Proof.
  unfold Sync1.diskSpace.
  destruct (Sync1.disk_GetInfo Filter env destination) as [free|err]; [|apply Quiet_ret].
  cbv zeta.
  apply Quiet_bind; [apply Quiet_Print | intros _].
  apply Quiet_bind; [apply Quiet_Print | intros _].
  apply Quiet_bind; [apply Quiet_Print | intros _].
  destruct (_ <? 1)%Z; apply Quiet_ret.
Qed.

Lemma Post_ret {A : Type} (a : A) (P : A -> Prop) : P a -> Post (ret a) P.
Proof. intros H w. exists []. simpl. now rewrite app_nil_r. Qed.

Lemma Post_bind {A B : Type} (m : M A) (k : A -> M B) (P : A -> Prop) (Q : B -> Prop) :
  Post m P -> (forall a, P a -> Post (k a) Q) -> Post (bind m k) Q.
Proof.
  intros Hm Hk w. unfold bind.
  destruct (Hm w) as (e1 & E1 & Q1 & Pa). destruct (m w) as [a w1]. simpl in E1, Pa.
  destruct (Hk a Pa w1) as (e2 & E2 & Q2 & Qb).
  exists (e1 ++ e2)%list. rewrite E2, E1, app_assoc, forallb_app, Q1, Q2. now repeat split.
Qed.

Lemma Quiet_Post {A : Type} (m : M A) : Quiet m -> Post m (fun _ => True).
Proof. intros H w. destruct (H w) as (evs & E & Q). now exists evs. Qed.

(** ** Disk space *)

Lemma int64_small (z : Z) : (- 2 ^ 63 <= z < 2 ^ 63)%Z -> int64 z = z.
Proof. intros H. unfold int64. rewrite Z.mod_small; lia. Qed.

Lemma diskSpace_result (Filter : Type) (env : Sync1.Env Filter)
    (files : list sync.File_) (destination : string) (free : Z) (w : World) :
  Sync1.disk_GetInfo Filter env destination = inl free ->
  fst (Sync1.diskSpace Filter env files destination w)
  = if (space_left free (Sync1.SpaceNeeded Filter env files) <? 1)%Z
    then Some (short_of_space (space_left free (Sync1.SpaceNeeded Filter env files)))
    else None.
Proof.
  intros Hinfo. unfold Sync1.diskSpace. rewrite Hinfo. cbv zeta.
  unfold bind, Print, emit. cbn [fst snd].
  fold (space_left free (Sync1.SpaceNeeded Filter env files)).
  destruct (_ <? 1)%Z; reflexivity.
Qed.

Lemma Post_diskSpace_short (Filter : Type) (env : Sync1.Env Filter)
    (files : list sync.File_) (destination : string) (free : Z) :
  Sync1.disk_GetInfo Filter env destination = inl free ->
  (space_left free (Sync1.SpaceNeeded Filter env files) < 1)%Z ->
  Post (Sync1.diskSpace Filter env files destination)
       (fun r => r = Some (short_of_space
                             (space_left free (Sync1.SpaceNeeded Filter env files)))).
Proof.
  intros Hinfo Hleft w.
  destruct (Quiet_diskSpace Filter env files destination w) as (evs & E & Q).
  exists evs. repeat split; try assumption.
  rewrite (diskSpace_result Filter env files destination free w Hinfo).
  apply Z.ltb_lt in Hleft. now rewrite Hleft.
Qed.

(** C4. The admission computes [left = free - needed] (in int64; exactly
    the difference when both are below 2^63) and lets the plan through
    exactly when [left >= 1]: with 1000 bytes free, a plan of 1001 bytes
    fails with left = -1, one of 1000 bytes fails with left = 0, one of 999
    bytes passes with left = 1.  When it fails the error says how many
    bytes are missing, and a run of [do] ends with an error after events
    that are neither a copy nor the question whether to start: that error
    is the one of the admission unless an earlier step had already stopped
    the run. *)
Theorem diskSpace_admission (Filter : Type) (pf : Platform) (env : Sync1.Env Filter) :
  (forall files destination free w,
     Sync1.disk_GetInfo Filter env destination = inl free ->
     let needed := Sync1.SpaceNeeded Filter env files in
     let left := space_left free needed in
     let result := fst (Sync1.diskSpace Filter env files destination w) in
     (result = None <-> 1 <= left)%Z
     /\ ((left < 1)%Z -> result = Some (short_of_space left))
     /\ ((0 <= free < 2 ^ 63)%Z -> (0 <= needed < 2 ^ 63)%Z -> left = (free - needed)%Z)
     /\ (free = 1000%Z -> needed = 1001%Z ->
         left = (-1)%Z
         /\ result = Some (ErrNew "not enough free disk space, need 1 more bytes"))
     /\ (free = 1000%Z -> needed = 1000%Z ->
         left = 0%Z
         /\ result = Some (ErrNew "not enough free disk space, need 0 more bytes"))
     /\ (free = 1000%Z -> needed = 999%Z -> left = 1%Z /\ result = None))
  /\ (forall conf fileList free w,
        let src := config.Source conf in
        let dst := config.Destination conf in
        let plan := fst (Sync1.diff Filter env fileList dst src) in
        let errs := snd (Sync1.diff Filter env fileList dst src) in
        let left := space_left free (Sync1.SpaceNeeded Filter env plan) in
        let run := Sync1.do Filter pf env conf w in
        Sync1.GetFileList Filter env src (config.Filter_ conf) = inl fileList ->
        Sync1.disk_GetInfo Filter env dst = inl free ->
        (left < 1)%Z ->
        (exists evs, trace (snd run) = (trace w ++ evs)%list /\ forallb quiet evs = true)
        /\ fst run <> None
        /\ (Sync1.FileOrPathExists Filter env src = true ->
            Sync1.FileOrPathExists Filter env dst = true ->
            fst run = match (if (0 <? List.length errs)%nat
                             then fst (showAndLogErrors pf errs w) else None) with
                      | Some err => Some err
                      | None => Some (short_of_space left)
                      end)).
Proof.
  split.
  - intros files destination free w Hinfo needed left result.
    assert (Hres := diskSpace_result Filter env files destination free w Hinfo).
    fold needed in Hres. fold left in Hres. fold result in Hres.
    split; [|split; [|split; [|split; [|split]]]].
    + rewrite Hres. destruct (Z.ltb_spec left 1); split; intros; try lia; congruence.
    + intros H. rewrite Hres. apply Z.ltb_lt in H. now rewrite H.
    + intros Hf Hn. unfold left, space_left.
      rewrite (int64_small free) by lia. apply int64_small. lia.
    + intros Hf Hn. rewrite Hres. unfold left. rewrite Hf, Hn. split; vm_compute; reflexivity.
    + intros Hf Hn. rewrite Hres. unfold left. rewrite Hf, Hn. split; vm_compute; reflexivity.
    + intros Hf Hn. rewrite Hres. unfold left. rewrite Hf, Hn. split; vm_compute; reflexivity.
  - intros conf fileList free w src dst plan errs left run Hlist Hinfo Hleft.
    assert (Hpost : Post (Sync1.do Filter pf env conf) (fun r => r <> None)).
    { unfold Sync1.do. fold src. fold dst.
      destruct (negb (Sync1.FileOrPathExists Filter env src)); [now apply Post_ret|].
      destruct (negb (Sync1.FileOrPathExists Filter env dst)); [now apply Post_ret|].
      unfold Sync1.readFileList. rewrite Hlist.
      unfold plan, errs, left in *.
      destruct (Sync1.diff Filter env fileList dst src) as [syncFiles es]. cbn [fst snd] in *.
      eapply Post_bind with (P := fun _ => True).
      { destruct (0 <? List.length es)%nat.
        - apply Quiet_Post. apply Quiet_bind; [apply Quiet_showAndLogErrors|].
          intros r. apply Quiet_ret.
        - now apply Post_ret. }
      intros [[err|] globErr] _; [now apply Post_ret|].
      eapply Post_bind; [apply Quiet_Post, Quiet_listDiff | intros _ _].
      eapply Post_bind; [exact (Post_diskSpace_short Filter env syncFiles dst free Hinfo Hleft)|].
      intros r ->. now apply Post_ret. }
    split; [|split].
    + destruct (Hpost w) as (evs & E & Q & _). now exists evs.
    + destruct (Hpost w) as (evs & _ & _ & H). exact H.
    + intros Hsrc Hdst. clear Hpost. subst run plan errs left.
      unfold Sync1.do. fold src. fold dst.
      rewrite Hsrc, Hdst. cbn [negb]. unfold Sync1.readFileList. rewrite Hlist.
      destruct (Sync1.diff Filter env fileList dst src) as [syncFiles es]. cbn [fst snd] in *.
      unfold bind at 1.
      destruct (0 <? List.length es)%nat.
      * unfold bind at 1. destruct (showAndLogErrors pf es w) as [[err|] w1]; [reflexivity|].
        cbn [ret fst]. unfold bind at 1. destruct (Sync1.listDiff syncFiles w1) as [[] w2].
        unfold bind at 1.
        assert (H := diskSpace_result Filter env syncFiles dst free w2 Hinfo).
        destruct (Sync1.diskSpace Filter env syncFiles dst w2) as [r w3]. cbn [fst] in H.
        apply Z.ltb_lt in Hleft. rewrite Hleft in H. subst r. reflexivity.
      * cbn [ret]. unfold bind at 1. destruct (Sync1.listDiff syncFiles w) as [[] w2].
        unfold bind at 1.
        assert (H := diskSpace_result Filter env syncFiles dst free w2 Hinfo).
        destruct (Sync1.diskSpace Filter env syncFiles dst w2) as [r w3]. cbn [fst] in H.
        apply Z.ltb_lt in Hleft. rewrite Hleft in H. subst r. reflexivity.
Qed.

(** ** The copy loop *)

Lemma add_trace_nil (w : World) : add_trace w [] = w.
Proof. destruct w. unfold add_trace. simpl. now rewrite app_nil_r. Qed.

Lemma add_trace_app (w : World) (a b : list Event) :
  add_trace (add_trace w a) b = add_trace w (a ++ b)%list.
Proof. unfold add_trace. simpl. now rewrite app_assoc. Qed.

Lemma failed_length (outcomes : list (sync.File_ * option error)) :
  List.length (failed outcomes) = List.length (filter is_failure outcomes).
Proof.
  induction outcomes as [|[f [e|]] l IH]; simpl; [reflexivity | now rewrite IH | exact IH].
Qed.

Lemma copyAll_outcomes (Filter : Type) (env : Sync1.Env Filter) (files : list sync.File_) :
  forall errs w, exists outcomes,
    map fst outcomes = files
    /\ Sync1.copyAll Filter env files errs w
       = ((errs ++ failed outcomes)%list, add_trace w (map copy_event outcomes)).
Proof.
  induction files as [|v files IH]; intros errs w.
  - exists []. simpl. unfold ret. now rewrite app_nil_r, add_trace_nil.
  - cbn [Sync1.copyAll]. unfold bind, Sync1.call_sync_Do. cbn [emit snd].
    fold (add_trace w [EvCopy v (Sync1.sync_Do Filter env v (trace w))]).
    destruct (Sync1.sync_Do Filter env v (trace w)) as [err|] eqn:E.
    + destruct (IH (errs ++ [err])%list (add_trace w [EvCopy v (Some err)]))
        as (outcomes & Hfiles & Hrun).
      exists ((v, Some err) :: outcomes). split; [simpl; now rewrite Hfiles|].
      rewrite Hrun, add_trace_app, <- app_assoc. reflexivity.
    + destruct (IH errs (add_trace w [EvCopy v None])) as (outcomes & Hfiles & Hrun).
      exists ((v, None) :: outcomes). split; [simpl; now rewrite Hfiles|].
      rewrite Hrun, add_trace_app. reflexivity.
Qed.

(** C6. Once the user has not declined, [snycFiles] calls [sync.Do] for
    every entry of the plan, in order, whatever the earlier calls returned,
    and returns exactly the errors of the calls that failed, one entry for
    each.  So for a plan of three files of which only the second fails, the
    third is still copied and the list has one entry. *)
Theorem snycFiles_attempts_all (Filter : Type) (env : Sync1.Env Filter) :
  (forall files w,
     ToLower (hd "" (answers w)) <> "n" ->
     exists outcomes,
       map fst outcomes = files
       /\ fst (Sync1.snycFiles Filter env files w) = failed outcomes
       /\ List.length (fst (Sync1.snycFiles Filter env files w))
          = List.length (filter is_failure outcomes)
       /\ trace (snd (Sync1.snycFiles Filter env files w))
          = (trace w ++ EvPrompt start_question (hd "" (answers w))
                     :: map copy_event outcomes)%list)
  /\ (forall f1 f2 f3 err w,
        ToLower (hd "" (answers w)) <> "n" ->
        (forall h, Sync1.sync_Do Filter env f1 h = None) ->
        (forall h, Sync1.sync_Do Filter env f2 h = Some err) ->
        (forall h, Sync1.sync_Do Filter env f3 h = None) ->
        fst (Sync1.snycFiles Filter env [f1; f2; f3] w) = [err]
        /\ trace (snd (Sync1.snycFiles Filter env [f1; f2; f3] w))
           = (trace w ++ [EvPrompt start_question (hd "" (answers w));
                          EvCopy f1 None; EvCopy f2 (Some err); EvCopy f3 None])%list).
Proof.
  split.
  - intros files w Hn. apply String.eqb_neq in Hn.
    unfold Sync1.snycFiles, bind, prompt_Input. rewrite Hn.
    match goal with
    | |- context [Sync1.copyAll Filter env files [] ?w1] =>
        destruct (copyAll_outcomes Filter env files [] w1) as (outcomes & Hfiles & Hrun)
    end.
    exists outcomes. rewrite Hrun. cbn [fst snd app add_trace trace].
    split; [exact Hfiles|]. split; [reflexivity|]. split; [apply failed_length|].
    now rewrite <- app_assoc.
  - intros f1 f2 f3 err w Hn H1 H2 H3. apply String.eqb_neq in Hn.
    unfold Sync1.snycFiles, bind, prompt_Input. rewrite Hn.
    cbn [Sync1.copyAll]. unfold bind, Sync1.call_sync_Do.
    cbn [emit snd trace]. rewrite H1. cbn [emit snd trace]. rewrite H2.
    cbn [emit snd trace]. rewrite H3. cbn [ret fst snd trace app].
    split; [reflexivity|]. now rewrite <- !app_assoc.
Qed.

(** ** Runs on a small library *)

Lemma diskSpace_admission_witness :
  fst (Sync1.diskSpace unit (demo_env [song "a.mp3" 1001] 1000 (fun _ => false))
         [plan_entry "a.mp3" 1001] "/player" (demo_world []))
  = Some (ErrNew "not enough free disk space, need 1 more bytes")
  /\ fst (Sync1.do unit (demo_platform false)
            (demo_env [song "a.mp3" 1001] 1000 (fun _ => false)) demo_conf
            (demo_world [""; ""]))
     = Some (ErrNew "not enough free disk space, need 1 more bytes").
Proof.
  pose proof (diskSpace_admission unit (demo_platform false)
                (demo_env [song "a.mp3" 1001] 1000 (fun _ => false))) as [H1 H2].
  split.
  - specialize (H1 [plan_entry "a.mp3" 1001] "/player" 1000%Z (demo_world []) eq_refl).
    cbv zeta in H1. destruct H1 as (_ & _ & _ & H & _).
    apply H; reflexivity.
  - specialize (H2 demo_conf [song "a.mp3" 1001] 1000%Z (demo_world [""; ""])).
    cbv zeta in H2.
    destruct (H2 eq_refl eq_refl ltac:(vm_compute; reflexivity)) as (_ & _ & H).
    exact (H eq_refl eq_refl).
Defined.

Lemma snycFiles_attempts_all_witness :
  fst (Sync1.snycFiles unit
         (demo_env [] 1000 (fun name => name =? "b.mp3"))
         [plan_entry "a.mp3" 10; plan_entry "b.mp3" 20; plan_entry "c.mp3" 30]
         (demo_world ["y"]))
  = [ErrNew "copy /music/abba/b.mp3: input/output error"]
  /\ trace (snd (Sync1.snycFiles unit
                   (demo_env [] 1000 (fun name => name =? "b.mp3"))
                   [plan_entry "a.mp3" 10; plan_entry "b.mp3" 20; plan_entry "c.mp3" 30]
                   (demo_world ["y"])))
     = ([] ++ [EvPrompt start_question "y";
               EvCopy (plan_entry "a.mp3" 10) None;
               EvCopy (plan_entry "b.mp3" 20)
                 (Some (ErrNew "copy /music/abba/b.mp3: input/output error"));
               EvCopy (plan_entry "c.mp3" 30) None])%list.
Proof.
  pose proof (snycFiles_attempts_all unit
                (demo_env [] 1000 (fun name => name =? "b.mp3"))) as [_ H].
  apply (H (plan_entry "a.mp3" 10) (plan_entry "b.mp3" 20) (plan_entry "c.mp3" 30)
           (ErrNew "copy /music/abba/b.mp3: input/output error") (demo_world ["y"])).
  - discriminate.
  - reflexivity.
  - reflexivity.
  - reflexivity.
Defined.

(** ** The end of a run *)

(** In the first revision [do] looks at the errors of [snycFiles] only when
    there are at least two of them: with at most one, nothing is logged or
    printed and the result depends on [globErr] alone. *)
Lemma do_sync_at_most_one (Filter : Type) (pf : Platform) (env : Sync1.Env Filter)
    (globErr : bool) (plan : list sync.File_) (w : World) :
  List.length (fst (Sync1.snycFiles Filter env plan w)) <= 1 ->
  Sync1.do_sync Filter pf env globErr plan w
  = (if globErr then Some see_log else None, snd (Sync1.snycFiles Filter env plan w)).
Proof.
  intros Hlen. unfold Sync1.do_sync. unfold bind at 1.
  destruct (Sync1.snycFiles Filter env plan w) as [errs w1]. cbn [fst snd] in *.
  apply Nat.ltb_ge in Hlen. unfold bind at 1. rewrite Hlen. cbn [ret].
  destruct globErr; reflexivity.
Qed.

(** So an answer "n" to "Start Sync?" is lost on the way: [snycFiles]
    returns the one error [errAbortedByUser], and [do] does not return it. *)
Lemma do_sync_abort_lost (Filter : Type) (pf : Platform) (env : Sync1.Env Filter)
    (globErr : bool) (plan : list sync.File_) (w : World) :
  ToLower (hd "" (answers w)) = "n" ->
  fst (Sync1.snycFiles Filter env plan w) = [Sentinel errAbortedByUser]
  /\ fst (Sync1.do_sync Filter pf env globErr plan w)
     = (if globErr then Some see_log else None)
  /\ trace (snd (Sync1.do_sync Filter pf env globErr plan w))
     = (trace w ++ [EvPrompt start_question (hd "" (answers w))])%list.
Proof.
  intros Hn.
  assert (Hs : Sync1.snycFiles Filter env plan w
               = ([Sentinel errAbortedByUser],
                  add_trace {| answers := tl (answers w); ticks := ticks w;
                               files := files w; trace := trace w |}
                    [EvPrompt start_question (hd "" (answers w))])).
  { unfold Sync1.snycFiles, bind, prompt_Input. rewrite Hn. reflexivity. }
  split; [now rewrite Hs|].
  rewrite do_sync_at_most_one by (rewrite Hs; simpl; lia).
  rewrite Hs. split; reflexivity.
Qed.

(** C1, on the first revision. Three songs to copy, the user answers "n"
    to "Start Sync?": no copy is made, but [do] returns nil, so the run
    ends as a success and not with "aborted by user". *)
Theorem do_abort_reported_as_success :
  let run := Sync1.do unit (demo_platform false)
               (demo_env [song "a.mp3" 10; song "b.mp3" 20; song "c.mp3" 30] 1000
                  (fun _ => false))
               demo_conf (demo_world [""; "n"]) in
  fst run = None
  /\ fst run <> Some (Sentinel errAbortedByUser)
  /\ In (EvPrompt start_question "n") (trace (snd run))
  /\ forallb (fun e => negb (is_copy e)) (trace (snd run)) = true.
Proof.
  cbv zeta. split; [vm_compute; reflexivity|]. split; [vm_compute; discriminate|].
  split; vm_compute; [tauto | reflexivity].
Qed.

(** C2, in both revisions. One song, whose copy fails; no other error.
    [do] returns nil although an error was collected: nothing is printed
    about it and no log file is written. *)
Theorem do_single_copy_error_is_success :
  let run1 := Sync1.do unit (demo_platform true)
                (demo_env [song "a.mp3" 10] 1000 (fun _ => true))
                demo_conf (demo_world [""; ""]) in
  let run2 := Sync2.do unit unit (list File) (demo_platform true)
                (demo_env2 [copy_failed]) demo_conf (demo_world [""; ""]) in
  (fst run1 = None
   /\ In (EvCopy (plan_entry "a.mp3" 10) (Some copy_failed)) (trace (snd run1))
   /\ forallb (fun e => match e with EvPrint errFormat _ => false | _ => true end)
        (trace (snd run1)) = true
   /\ files (snd run1) "logs/20210309-120007.log" = None)
  /\ (fst run2 = None
      /\ In (EvSync [plan_entry "a.mp3" 10] [copy_failed]) (trace (snd run2))
      /\ forallb (fun e => match e with EvPrint errFormat _ => false | _ => true end)
           (trace (snd run2)) = true
      /\ files (snd run2) "logs/20210309-120007.log" = None).
Proof.
  cbv zeta. split.
  - split; [vm_compute; reflexivity|]. split; [vm_compute; tauto|].
    split; vm_compute; reflexivity.
  - split; [vm_compute; reflexivity|]. split; [vm_compute; tauto|].
    split; vm_compute; reflexivity.
Qed.

(** With two failed copies the same runs do end with "see log". *)
Example do_two_copy_errors :
  fst (Sync1.do unit (demo_platform true)
         (demo_env [song "a.mp3" 10; song "b.mp3" 10] 1000 (fun _ => true))
         demo_conf (demo_world [""; ""]))
  = Some see_log
  /\ fst (Sync2.do unit unit (list File) (demo_platform true)
            (demo_env2 [copy_failed; copy_failed]) demo_conf (demo_world [""; ""]))
     = Some see_log.
Proof. split; vm_compute; reflexivity. Qed.

(** ** The name of the log file *)

Lemma appendInt_digits (width n : nat) : n < 10 ^ width -> appendInt width n = digits width n.
Proof. intros H. unfold appendInt. apply Nat.ltb_lt in H. now rewrite H. Qed.

Lemma Format_stamp (t : Time) : valid_time t -> Format t logFileNameFormat = stamp t.
Proof.
  intros (Hy & Hm & Hd & Hh & Hmi & Hs).
  unfold stamp.
  lazy -[appendInt digits append year month day hour minute second].
  rewrite app_empty_r.
  rewrite (appendInt_digits 4 (year t) Hy).
  rewrite !appendInt_digits by (change (10 ^ 2) with 100; lia).
  reflexivity.
Qed.

Lemma digit_compare (a b : nat) :
  a < 10 -> b < 10 -> Ascii.compare (digit a) (digit b) = Nat.compare a b.
Proof.
  intros Ha Hb.
  do 10 (destruct a as [|a];
         [do 10 (destruct b as [|b]; [vm_compute; reflexivity|]); lia|]).
  lia.
Qed.

Lemma compare_div_mod (p a b : nat) :
  0 < p ->
  Nat.compare a b
  = match Nat.compare (a / p) (b / p) with
    | Eq => Nat.compare (a mod p) (b mod p)
    | c => c
    end.
Proof.
  intros Hp.
  pose proof (Nat.div_mod_eq a p) as Ea. pose proof (Nat.div_mod_eq b p) as Eb.
  pose proof (Nat.mod_upper_bound a p) as Ua. pose proof (Nat.mod_upper_bound b p) as Ub.
  destruct (Nat.compare_spec (a / p) (b / p)) as [Hq|Hq|Hq].
  - destruct (Nat.compare_spec (a mod p) (b mod p)) as [Hr|Hr|Hr].
    + apply Nat.compare_eq_iff. rewrite Ea, Eb, Hq, Hr. reflexivity.
    + apply Nat.compare_lt_iff. rewrite Ea, Eb, Hq. lia.
    + apply Nat.compare_gt_iff. rewrite Ea, Eb, Hq. lia.
  - apply Nat.compare_lt_iff. nia.
  - apply Nat.compare_gt_iff. nia.
Qed.

(** Numbers written on the same number of digits compare as their texts. *)
Lemma digits_compare (k : nat) :
  forall a b s1 s2,
    a < 10 ^ k -> b < 10 ^ k ->
    String.compare (digits k a ++ s1) (digits k b ++ s2)
    = match Nat.compare a b with
      | Eq => String.compare s1 s2
      | c => c
      end.
Proof.
  induction k as [|k IH]; intros a b s1 s2 Ha Hb.
  - simpl in Ha, Hb. assert (a = 0) by lia. assert (b = 0) by lia. subst. reflexivity.
  - assert (Hp : 0 < 10 ^ k) by (apply Nat.neq_0_lt_0, Nat.pow_nonzero; lia).
    cbn [digits append String.compare].
    rewrite digit_compare.
    + rewrite IH by (apply Nat.mod_upper_bound; lia).
      rewrite (compare_div_mod (10 ^ k) a b Hp).
      destruct (Nat.compare (a / 10 ^ k) (b / 10 ^ k)); reflexivity.
    + apply Nat.Div0.div_lt_upper_bound. rewrite Nat.pow_succ_r' in Ha. lia.
    + apply Nat.Div0.div_lt_upper_bound. rewrite Nat.pow_succ_r' in Hb. lia.
Qed.

(** The stamps of two clock readings are in the order of the readings, also
    when something follows them. *)
Lemma stamp_compare_app (a b : Time) (s1 s2 : string) :
  valid_time a -> valid_time b ->
  String.compare (stamp a ++ s1) (stamp b ++ s2)
  = match time_compare a b with
    | Eq => String.compare s1 s2
    | c => c
    end.
Proof.
  intros (Hy & Hm & Hd & Hh & Hmi & Hs) (Hy' & Hm' & Hd' & Hh' & Hmi' & Hs').
  unfold stamp, time_compare. rewrite !app_assoc_str.
  rewrite (digits_compare 4 _ _ _ _ Hy Hy').
  destruct (Nat.compare (year a) (year b)); try reflexivity.
  rewrite digits_compare by (change (10 ^ 2) with 100; lia).
  destruct (Nat.compare (month a) (month b)); try reflexivity.
  rewrite digits_compare by (change (10 ^ 2) with 100; lia).
  destruct (Nat.compare (day a) (day b)); try reflexivity.
  change ("-" ++ ?x) with (String "-" x). cbn [String.compare].
  change (Ascii.compare "-" "-") with Eq. cbn iota.
  rewrite digits_compare by (change (10 ^ 2) with 100; lia).
  destruct (Nat.compare (hour a) (hour b)); try reflexivity.
  rewrite digits_compare by (change (10 ^ 2) with 100; lia).
  destruct (Nat.compare (minute a) (minute b)); try reflexivity.
  rewrite digits_compare by (change (10 ^ 2) with 100; lia).
  destruct (Nat.compare (second a) (second b)); reflexivity.
Qed.

Lemma length_app_str (a b : string) :
  String.length (a ++ b) = String.length a + String.length b.
Proof. induction a as [|x a IH]; simpl; [reflexivity | now rewrite IH]. Qed.

Lemma length_digits (k n : nat) : String.length (digits k n) = k.
Proof. revert n. induction k as [|k IH]; intros n; simpl; [reflexivity | now rewrite IH]. Qed.

Lemma any_byte_app (p : ascii -> bool) (a b : string) :
  any_byte p (a ++ b) = any_byte p a || any_byte p b.
Proof.
  induction a as [|x a IH]; simpl; [reflexivity | now rewrite IH, orb_assoc].
Qed.

Lemma digits_no_sep (k n : nat) : any_byte (Ascii.eqb PathSeparator) (digits k n) = false.
Proof.
  revert n. induction k as [|k IH]; intros n; cbn [digits any_byte]; [reflexivity|].
  rewrite IH, orb_false_r.
  generalize (n / 10 ^ k). intros d.
  do 9 (destruct d as [|d]; [reflexivity|]). reflexivity.
Qed.

Lemma split_no_sep (s : string) :
  any_byte (Ascii.eqb PathSeparator) s = false ->
  forall cur, splitFrom sep O cur s = [cur ++ s].
Proof.
  induction s as [|c s IH]; intros H cur; cbn [splitFrom].
  - now rewrite app_empty_r.
  - cbn [any_byte] in H. apply orb_false_elim in H. destruct H as [Hc Hs].
    unfold sep. cbn [prefix].
    destruct (ascii_dec PathSeparator c) as [E|_].
    + rewrite E, Ascii.eqb_refl in Hc. discriminate.
    + rewrite (IH Hs), app_assoc_str. reflexivity.
Qed.

Lemma splitFrom_byte (c : ascii) (s cur : string) :
  c <> PathSeparator ->
  splitFrom sep O cur (String c s) = splitFrom sep O (cur ++ String c "") s.
Proof.
  intros H. cbn [splitFrom]. unfold sep. cbn [prefix].
  destruct (ascii_dec PathSeparator c) as [E|_]; [congruence | reflexivity].
Qed.

Lemma splitFrom_sep (s cur : string) :
  splitFrom sep O cur (String PathSeparator s) = cur :: splitFrom sep O "" s.
Proof.
  cbn [splitFrom]. unfold sep. cbn [prefix String.length Nat.sub].
  destruct (ascii_dec PathSeparator PathSeparator) as [_|H]; [|congruence].
  now destruct s.
Qed.

Lemma Join_logs (name : string) :
  any_byte (Ascii.eqb PathSeparator) name = false ->
  2 < String.length name ->
  Join ["."; logPath; name] = "logs/" ++ name.
Proof.
  intros Hsep Hlen.
  assert (Hne : forall x, String.length x <= 2 -> (name =? x) = false).
  { intros x Hx. apply String.eqb_neq. intros ->. lia. }
  unfold Join, logPath. cbn [filter String.eqb negb Ascii.eqb Bool.eqb].
  rewrite (Hne "") by (simpl; lia). cbn [negb].
  unfold Clean. cbn [join_with].
  change ("." ++ sep ++ "logs" ++ sep ++ name) with ("./logs/" ++ name).
  change (prefix sep ("./logs/" ++ name)) with false. cbv iota.
  assert (Hsplit : Split ("./logs/" ++ name) sep = ["."; "logs"; name]).
  { unfold Split. change ("./logs/" ++ name)
      with (String "." (String PathSeparator (String "l" (String "o" (String "g"
             (String "s" (String PathSeparator name))))))).
    rewrite splitFrom_byte by discriminate. rewrite splitFrom_sep.
    rewrite !splitFrom_byte by discriminate. rewrite splitFrom_sep.
    rewrite (split_no_sep name Hsep). reflexivity. }
  rewrite Hsplit. cbn [fold_left].
  unfold clean_step at 3. cbn [String.eqb Ascii.eqb Bool.eqb orb].
  unfold clean_step at 2. cbn [String.eqb Ascii.eqb Bool.eqb orb].
  unfold clean_step. rewrite (Hne "."), (Hne ".."), (Hne "") by (simpl; lia).
  cbn [orb rev app join_with].
  change ("" ++ ?x) with x.
  destruct (("logs" ++ sep ++ name) =? "") eqn:E; [|reflexivity].
  apply String.eqb_eq in E. discriminate.
Qed.

Lemma compare_same_prefix (p x y : string) :
  String.compare (p ++ x) (p ++ y) = String.compare x y.
Proof.
  induction p as [|c p IH]; cbn [append String.compare]; [reflexivity|].
  assert (E : Ascii.compare c c = Eq).
  { unfold Ascii.compare. apply N.compare_refl. }
  now rewrite E.
Qed.

(** Log files are named in the order of the clock. *)
Lemma log_file_name_compare (a b : Time) :
  valid_time a -> valid_time b ->
  String.compare (log_file_name a) (log_file_name b) = time_compare a b.
Proof.
  intros Ha Hb. unfold log_file_name.
  rewrite compare_same_prefix, (stamp_compare_app a b _ _ Ha Hb).
  destruct (time_compare a b); reflexivity.
Qed.

Lemma logFileName_valid (t : Time) :
  valid_time t ->
  Join ["."; logPath; Format t logFileNameFormat ++ ".log"] = log_file_name t.
Proof.
  intros Ht. rewrite (Format_stamp t Ht). unfold log_file_name. apply Join_logs.
  - unfold stamp. rewrite !any_byte_app, !digits_no_sep. reflexivity.
  - unfold stamp. rewrite !length_app_str, !length_digits. simpl. lia.
Qed.

(** ** The log writer *)

(** The handle that [logErrors] gets: its flags carry no write access, so
    it can be written only where appending implies it. *)
Lemma logErrors_handle (pf : Platform) (name : string) (w : World) :
  OpenFile_fails pf name = None ->
  OpenFile pf name (Z.lor O_CREATE O_APPEND) 384 w
  = (inl {| h_name := name; h_writable := append_implies_write pf |},
     match files w name with Some _ => w | None => set_file w name "" end).
Proof.
  intros Hopen. unfold OpenFile. rewrite Hopen.
  change (Z.land (Z.lor O_CREATE O_APPEND) 3) with 0%Z.
  change (Z.land (Z.lor O_CREATE O_APPEND) O_APPEND) with 1024%Z.
  change (Z.land (Z.lor O_CREATE O_APPEND) O_CREATE) with 64%Z.
  cbn [Z.eqb O_WRONLY O_RDWR orb negb andb].
  rewrite andb_true_r.
  destruct (files w name); reflexivity.
Qed.

Lemma content_set_file (w : World) (name c : string) : content (set_file w name c) name = c.
Proof. unfold content, set_file. simpl. now rewrite String.eqb_refl. Qed.

Lemma writeLines_appends (pf : Platform) (h : Handle) (errs : list error) :
  h_writable h = true ->
  (forall e, In e errs -> WriteString_fails pf (h_name h) (Error e ++ newline) = None) ->
  forall w,
    fst (writeLines pf h errs w) = None
    /\ content (snd (writeLines pf h errs w)) (h_name h)
       = content w (h_name h) ++ log_lines errs
    /\ (files w (h_name h) <> None -> files (snd (writeLines pf h errs w)) (h_name h) <> None)
    /\ (forall other, other <> h_name h ->
          files (snd (writeLines pf h errs w)) other = files w other).
Proof.
  intros Hw. induction errs as [|e errs IH]; intros Hok w.
  - simpl. rewrite app_empty_r. tauto.
  - assert (Hstep : writeLines pf h (e :: errs) w
                    = writeLines pf h errs
                        (set_file w (h_name h) (content w (h_name h) ++ Error e ++ newline))).
    { cbn [writeLines]. unfold bind at 1. unfold WriteString. rewrite Hw. cbn [negb].
      rewrite (Hok e) by now left. reflexivity. }
    rewrite Hstep.
    destruct (IH (fun e' H => Hok e' (or_intror H))
                (set_file w (h_name h) (content w (h_name h) ++ Error e ++ newline)))
      as (Hr & Hc & He & Ho).
    split; [exact Hr|]. split; [|split].
    + rewrite Hc, content_set_file. cbn [log_lines]. now rewrite !app_assoc_str.
    + intros _. apply He. unfold set_file. simpl. rewrite String.eqb_refl. discriminate.
    + intros other Hne. rewrite (Ho other Hne). unfold set_file. simpl.
      apply String.eqb_neq in Hne. now rewrite Hne.
Qed.

Lemma logErrors_unfold (pf : Platform) (errs : list error) (w : World) :
  logErrors pf errs w
  = let name := Join ["."; logPath; Format (clock pf (ticks w)) logFileNameFormat ++ ".log"] in
    let (r, w1) := OpenFile pf name (Z.lor O_CREATE O_APPEND) 384 (tick w) in
    match r with
    | inr err => ((name, Some (wrapWriteLog err)), w1)
    | inl logFile =>
        let (r, w2) := writeLines pf logFile errs w1 in
        match r with
        | Some err => ((name, Some err), w2)
        | None => ((name, None), w2)
        end
    end.
Proof.
  unfold logErrors, bind, time_Now, tick. cbv zeta.
  destruct (OpenFile pf _ _ _ _) as [[h|err] w1]; [|reflexivity].
  destruct (writeLines pf h errs w1) as [[err|] w2]; reflexivity.
Qed.

(** Where a handle opened for appending may be written (Windows), and the
    file system does not fail, [logErrors] does what it is meant to do: the
    messages go, one per line and in order, to the end of the file named
    after the clock in the log directory, and the name is returned with no
    error. *)
Lemma logErrors_appends (pf : Platform) (errs : list error) (w : World) :
  let name := log_file_name (clock pf (ticks w)) in
  let run := logErrors pf errs w in
  append_implies_write pf = true ->
  valid_time (clock pf (ticks w)) ->
  OpenFile_fails pf name = None ->
  (forall e, In e errs -> WriteString_fails pf name (Error e ++ newline) = None) ->
  fst run = (name, None)
  /\ files (snd run) name = Some (content w name ++ log_lines errs)
  /\ (forall other, other <> name -> files (snd run) other = files w other)
  /\ trace (snd run) = trace w.
Proof.
  intros name run Happ Ht Hopen Hwrite.
  assert (Htrace : trace (snd run) = trace w) by apply Silent_logErrors.
  revert Htrace. unfold run.
  rewrite logErrors_unfold, (logFileName_valid _ Ht). fold name. cbv zeta.
  rewrite (logErrors_handle pf name (tick w) Hopen), Happ.
  clearbody name. clear run.
  set (h := {| h_name := name; h_writable := true |}).
  assert (Hw1 : exists w1,
             match files (tick w) name with
             | Some _ => tick w
             | None => set_file (tick w) name ""
             end = w1
             /\ files w1 name <> None /\ content w1 name = content w name
             /\ forall other, other <> name -> files w1 other = files w other).
  { eexists. split; [reflexivity|]. unfold content, tick, set_file. cbn [files].
    destruct (files w name) eqn:E; cbn [files].
    - rewrite E. split; [discriminate|]. split; [reflexivity|].
      intros other _. reflexivity.
    - rewrite String.eqb_refl. split; [discriminate|]. split; [reflexivity|].
      intros other Hne. apply String.eqb_neq in Hne. now rewrite Hne. }
  destruct Hw1 as (w1 & -> & Hex & Hcw & Hoth).
  destruct (writeLines_appends pf h errs eq_refl Hwrite w1) as (Hr & Hc & He & Ho).
  destruct (writeLines pf h errs w1) as [r w2]. cbn [fst snd h_name h] in *. subst r.
  intros Htrace. cbn [fst snd].
  split; [reflexivity|]. split; [|split; [|exact Htrace]].
  - specialize (He Hex). unfold content in Hc at 1.
    destruct (files w2 name) as [c|]; [|congruence].
    now rewrite Hc, Hcw.
  - intros other Hne. now rewrite (Ho other Hne), (Hoth other Hne).
Qed.

(** Where it may not (POSIX), the first write fails: nothing is appended
    and [logErrors] returns the error [errWriteLog]. *)
Lemma logErrors_read_only (pf : Platform) (e : error) (errs : list error) (w : World) :
  let name := log_file_name (clock pf (ticks w)) in
  let run := logErrors pf (e :: errs) w in
  append_implies_write pf = false ->
  valid_time (clock pf (ticks w)) ->
  OpenFile_fails pf name = None ->
  fst run = (name, Some (wrapWriteLog (ErrNew ("write " ++ name ++ ": bad file descriptor"))))
  /\ errors_Is (wrapWriteLog (ErrNew ("write " ++ name ++ ": bad file descriptor")))
       errWriteLog = true
  /\ files (snd run) name = Some (content w name).
Proof.
  intros name run Happ Ht Hopen. unfold run.
  rewrite logErrors_unfold, (logFileName_valid _ Ht). fold name. cbv zeta.
  rewrite (logErrors_handle pf name (tick w) Hopen), Happ.
  clearbody name. clear run.
  cbn [writeLines]. unfold bind, WriteString. cbn [h_writable negb ret fst snd h_name].
  split; [reflexivity|]. split; [reflexivity|].
  unfold content, tick, set_file. cbn [files].
  destruct (files w name) eqn:E; cbn [files].
  - exact E.
  - now rewrite String.eqb_refl.
Qed.

(** C7. On a POSIX platform, with a log directory that can be written:
    the file is made, but the handle has no write access, so the first
    write fails, nothing is appended and [logErrors] returns an error
    instead of the path alone. *)
Theorem logErrors_fails_without_write_access :
  let run := logErrors (demo_platform false) [ErrNew "a.mp3: bad tag"; ErrNew "b.mp3: bad tag"]
               (demo_world []) in
  fst run
  = ("logs/20210309-120007.log",
     Some (ErrWrap
             "failed to write log file: write logs/20210309-120007.log: bad file descriptor"
             (Sentinel errWriteLog)))
  /\ files (snd run) "logs/20210309-120007.log" = Some "".
Proof. cbv zeta. split; vm_compute; reflexivity. Qed.

(** The same call where appending implies write access. *)
Example logErrors_appends_example :
  let run := logErrors (demo_platform true) [ErrNew "a.mp3: bad tag"; ErrNew "b.mp3: bad tag"]
               (demo_world []) in
  fst run = ("logs/20210309-120007.log", None)
  /\ files (snd run) "logs/20210309-120007.log"
     = Some ("a.mp3: bad tag" ++ newline ++ "b.mp3: bad tag" ++ newline).
Proof. cbv zeta. split; vm_compute; reflexivity. Qed.

(** ** "Start Sync?" in the second revision *)

Lemma Shaped_ret (err : error) : Shaped (ret (Some err)).
Proof.
  intros w. exists []. simpl. rewrite app_nil_r. split; [reflexivity|].
  left. split; [reflexivity | discriminate].
Qed.

Lemma run_shape_after (e1 e2 : list Event) (r : option error) :
  forallb quiet e1 = true -> run_shape e2 r -> run_shape (e1 ++ e2)%list r.
Proof.
  intros Q1 [[Q2 Hr]|[(b & t & -> & Qb & Ht & Hr)|(b & t & p & es & a & -> & Qb & Qa & Ht)]].
  - left. now rewrite forallb_app, Q1, Q2.
  - right. left. exists (e1 ++ b)%list, t.
    rewrite app_assoc, forallb_app, Q1, Qb. now repeat split.
  - right. right. exists (e1 ++ b)%list, t, p, es, a.
    rewrite app_assoc, forallb_app, Q1, Qb. now repeat split.
Qed.

Lemma Shaped_bind {A : Type} (m : M A) (k : A -> M (option error)) :
  Quiet m -> (forall a, Shaped (k a)) -> Shaped (bind m k).
Proof.
  intros Hm Hk w. unfold bind.
  destruct (Hm w) as (e1 & E1 & Q1). destruct (m w) as [a w1]. simpl in E1.
  destruct (Hk a w1) as (e2 & E2 & S2).
  exists (e1 ++ e2)%list. rewrite E2, E1, app_assoc. split; [reflexivity|].
  now apply run_shape_after.
Qed.

Lemma bind_prompt {B : Type} (q : string) (k : string -> M B) (w : World) :
  bind (prompt_Input q) k w = k (hd "" (answers w)) (snd (prompt_Input q w)).
Proof. reflexivity. Qed.

Lemma bind_filesync_Do {B : Type} (Filter ConfigTag Transformed : Type)
    (env : Sync2.Env Filter ConfigTag Transformed) (plan : list sync.File_)
    (k : list error -> M B) (w : World) :
  bind (Sync2.call_filesync_Do Filter ConfigTag Transformed env plan) k w
  = k (Sync2.filesync_Do Filter ConfigTag Transformed env plan (trace w))
      (add_trace w [EvSync plan
                      (Sync2.filesync_Do Filter ConfigTag Transformed env plan (trace w))]).
Proof. reflexivity. Qed.

(** What [do] does with the errors of [filesync.Do] adds no copy. *)
Lemma Quiet_after_sync (pf : Platform) (globErr : bool) (errs : list error) :
  Quiet (bind (if (1 <? List.length errs)%nat then
                 if errors_Is (hd (ErrNew "") errs) errAbortedByUser
                 then ret (inl (hd (ErrNew "") errs))
                 else
                   bind (logErrors pf errs) (fun r =>
                     match r with
                     | (_, Some err) => ret (inl err)
                     | (logFileName, None) =>
                         bind (Print errFormat
                                 ("found " ++ format_d (Z.of_nat (List.length errs))
                                    ++ " errors" ++ newline)) (fun _ =>
                         bind (Print errFormat
                                 ("logged errors in file " ++ logFileName ++ newline)) (fun _ =>
                         ret (inr true)))
                     end)
               else ret (inr globErr))
          (fun r : error + bool =>
             match r with
             | inl err => ret (Some err)
             | inr globErr =>
                 if globErr then ret (Some (ErrNew "see log for more details"))
                 else ret (@None error)
             end)).
Proof.
  apply Quiet_bind.
  - destruct (1 <? List.length errs)%nat; [|apply Quiet_ret].
    destruct (errors_Is _ _); [apply Quiet_ret|].
    apply Quiet_bind; [apply Silent_Quiet, Silent_logErrors|].
    intros [name [err|]]; [apply Quiet_ret|].
    apply Quiet_bind; [apply Quiet_Print | intros _].
    apply Quiet_bind; [apply Quiet_Print | intros _]. apply Quiet_ret.
  - intros [err|[|]]; apply Quiet_ret.
Qed.

(** C1, on the second revision, where the claim holds: every run of [do]
    has one of the three shapes of [run_shape], so an answer that lowercases
    to "n" ends the run with [errAbortedByUser] before any copy, and any
    other answer is followed by the call of [filesync.Do]. *)
Lemma do_start_prompt (Filter ConfigTag Transformed : Type) (pf : Platform)
    (env : Sync2.Env Filter ConfigTag Transformed) (conf : config.Config Filter) :
  Shaped (Sync2.do Filter ConfigTag Transformed pf env conf).
Proof.
  unfold Sync2.do. cbv zeta.
  destruct (Sync2.Err _); [apply Shaped_ret|].
  destruct (Sync2.Err _); [apply Shaped_ret|].
  destruct (Sync2.transform_Do _ _ _ env _ _ _ _ _) as [transformed errs].
  apply Shaped_bind.
  { destruct (0 <? List.length errs)%nat; [|apply Quiet_ret].
    apply Quiet_bind; [apply Quiet_showAndLogErrors | intros r; apply Quiet_ret]. }
  intros [[err|] globErr]; [apply Shaped_ret|].
  apply Shaped_bind; [apply Quiet_listDiff | intros _].
  destruct (Sync2.CalculateDiskSpace _ _ _ env _ _) as [ds [err|]]; [apply Shaped_ret|].
  apply Shaped_bind; [apply Quiet_Print | intros _].
  apply Shaped_bind; [apply Quiet_Print | intros _].
  apply Shaped_bind; [apply Quiet_Print | intros _].
  intros w. rewrite bind_prompt.
  set (t := hd "" (answers w)).
  assert (Ht1 : trace (snd (prompt_Input "Start Sync? [Y/n] " w))
                = (trace w ++ [EvPrompt start_question t])%list) by reflexivity.
  set (w1 := snd (prompt_Input "Start Sync? [Y/n] " w)) in *. clearbody w1.
  destruct (String.eqb_spec (ToLower t) "n") as [Hn|Hn].
  - exists [EvPrompt start_question t]. split; [exact Ht1|].
    right. left. exists [], t. now repeat split.
  - rewrite bind_filesync_Do.
    set (plan := Sync2.diff _ _ _ env transformed _).
    set (es := Sync2.filesync_Do _ _ _ env plan (trace w1)).
    destruct (Quiet_after_sync pf globErr es (add_trace w1 [EvSync plan es]))
      as (after & E & Q).
    exists (EvPrompt start_question t :: EvSync plan es :: after).
    split.
    + rewrite E. cbn [trace add_trace]. rewrite Ht1. now rewrite <- !app_assoc.
    + right. right. exists [], t, plan, es, after. now repeat split.
Qed.

(** * Further properties *)

(** ** The substitution table, continued *)

Lemma any_byte_flat_bytes (p : ascii -> bool) (f : ascii -> string) (s : string) :
  any_byte p (flat_bytes f s) = any_byte (fun c => any_byte p (f c)) s.
Proof.
  induction s as [|c s IH]; simpl; [reflexivity|].
  now rewrite any_byte_app, IH.
Qed.

Lemma any_byte_none (p : ascii -> bool) (s : string) :
  any_byte p s = false <-> (forall c, In c (bytes_of s) -> p c = false).
Proof.
  induction s as [|x s IH]; simpl.
  - split; [intros _ c [] | reflexivity].
  - rewrite orb_false_iff, IH. split.
    + intros [Hx Hs] c [<-|Hc]; [exact Hx | now apply Hs].
    + intros H. split; [apply H; now left | intros c Hc; apply H; now right].
Qed.

Lemma replacement_has_no_key (c : ascii) : any_byte is_key (sanitize_byte chars c) = false.
Proof.
  unfold sanitize_byte. destruct (lookup_byte chars c) as [v|] eqn:E.
  - apply any_byte_none. intros c' Hc'. unfold is_key.
    rewrite lookup_byte_None; [reflexivity|].
    intros kv' Hkv'. apply lookup_byte_Some_In in E.
    exact (chars_closed _ kv' E Hkv' c' Hc').
  - simpl. unfold is_key. now rewrite E.
Qed.

Lemma sanitize_has_no_key (s : string) : any_byte is_key (sanitize s) = false.
Proof.
  unfold sanitize. rewrite any_byte_flat_bytes.
  induction s as [|c s IH]; simpl; [reflexivity|].
  now rewrite replacement_has_no_key, IH.
Qed.

Lemma sanitize_clean (s : string) : any_byte is_key s = false -> sanitize s = s.
Proof.
  intros H. apply flat_bytes_fixed. intros c Hc.
  rewrite any_byte_none in H. specialize (H c Hc). unfold is_key in H.
  now destruct (lookup_byte chars c).
Qed.

(** X1. The result of [replaceChars] does not depend on the order in which
    Go visits the map: any two orders give the same string. *)
Theorem replaceChars_order_independent (order1 order2 : list (string * string)) (s : string) :
  Permutation order1 chars -> Permutation order2 chars ->
  replaceChars order1 s = replaceChars order2 s.
Proof.
  intros H1 H2.
  now rewrite (replaceChars_sanitize order1 s H1), (replaceChars_sanitize order2 s H2).
Qed.

Lemma replaceChars_order_independent_witness :
  replaceChars chars "AC/DC: [Live]" = replaceChars (rev chars) "AC/DC: [Live]".
Proof.
  apply (replaceChars_order_independent chars (rev chars) "AC/DC: [Live]").
  - apply Permutation_refl.
  - apply Permutation_sym, Permutation_rev.
Defined.

(** X2. After [replaceChars] no byte of the result is a key of the map:
    none of the thirteen characters is left. *)
Theorem replaceChars_no_key_left (order : list (string * string)) (s : string) :
  Permutation order chars ->
  any_byte is_key (replaceChars order s) = false.
Proof.
  intros HP. rewrite (replaceChars_sanitize order s HP). apply sanitize_has_no_key.
Qed.

Lemma replaceChars_no_key_left_witness :
  any_byte is_key (replaceChars chars "What? <No> | 'Yes' * 2 + [3]") = false.
Proof. apply (replaceChars_no_key_left chars). apply Permutation_refl. Defined.

(** X3. [replaceChars] returns its argument unchanged exactly when the
    argument holds none of the keys of the map. *)
Theorem replaceChars_unchanged_iff (order : list (string * string)) (s : string) :
  Permutation order chars ->
  (replaceChars order s = s <-> any_byte is_key s = false).
Proof.
  intros HP. rewrite (replaceChars_sanitize order s HP). split.
  - intros H. rewrite <- H. apply sanitize_has_no_key.
  - apply sanitize_clean.
Qed.

Lemma replaceChars_unchanged_iff_witness :
  replaceChars chars "Queen - Jazz (1978).mp3" = "Queen - Jazz (1978).mp3"
  <-> any_byte is_key "Queen - Jazz (1978).mp3" = false.
Proof. apply (replaceChars_unchanged_iff chars). apply Permutation_refl. Defined.

(** X4. [replaceChars] works byte by byte: the result for a concatenation
    is the concatenation of the results. *)
Theorem replaceChars_app (order : list (string * string)) (a b : string) :
  Permutation order chars ->
  replaceChars order (a ++ b) = replaceChars order a ++ replaceChars order b.
Proof.
  intros HP. rewrite !(replaceChars_sanitize order _ HP). apply sanitize_app.
Qed.

Lemma replaceChars_app_witness :
  replaceChars chars ("AC/DC" ++ ": Live") = replaceChars chars "AC/DC" ++ replaceChars chars ": Live".
Proof. apply (replaceChars_app chars). apply Permutation_refl. Defined.

(** ** The file name, continued *)

Lemma sanitize_literals :
  sanitize " - " = " - " /\ sanitize " (" = " (" /\ sanitize ")" = ")" /\ sanitize "0" = "0".
Proof. repeat split; vm_compute; reflexivity. Qed.

(** X5. The file name is put together from the sanitized fields, the
    separators staying as they are: artist, then " - album", " (year)",
    " - disk" and " - track" for the fields that are not empty (a track of
    one byte gets a leading zero), then " - title" and the extension.
    [getFileName] never returns an error. *)
Theorem getFileName_parts (order : list (string * string)) (tag : Tag) (ext : string) :
  Permutation order chars ->
  let disk := GetTextFrame (TextFrames tag) frameIDDisk in
  let track := GetTextFrame (TextFrames tag) frameIDTrack in
  getFileName order tag ext
  = (sanitize (Artist tag)
     ++ (if Album tag =? "" then "" else " - " ++ sanitize (Album tag))
     ++ (if Year tag =? "" then "" else " (" ++ sanitize (Year tag) ++ ")")
     ++ (if disk =? "" then "" else " - " ++ sanitize disk)
     ++ (if track =? "" then ""
         else " - " ++ (if (String.length track =? 1)%nat then "0" else "") ++ sanitize track)
     ++ " - " ++ sanitize (Title tag) ++ sanitize ext,
     None).
Proof.
  intros HP disk track. unfold getFileName. fold disk. fold track. cbv zeta.
  rewrite (replaceChars_sanitize order _ HP). f_equal.
  destruct sanitize_literals as (Ldash & Lopen & Lclose & Lzero).
  destruct (Album tag =? ""), (Year tag =? ""), (disk =? ""), (track =? ""),
    (String.length track =? 1)%nat; cbn [negb];
    rewrite ?app_assoc_str, !sanitize_app, ?Ldash, ?Lopen, ?Lclose, ?Lzero;
    rewrite ?app_assoc_str; reflexivity.
Qed.

Lemma getFileName_parts_witness :
  getFileName chars queen ".mp3"
  = (sanitize "Queen" ++ (" - " ++ sanitize "Greatest Hits")
     ++ (" (" ++ sanitize "1981" ++ ")") ++ "" ++ (" - " ++ "0" ++ sanitize "5")
     ++ " - " ++ sanitize "Bohemian Rhapsody" ++ sanitize ".mp3", None).
Proof. apply (getFileName_parts chars queen ".mp3"). apply Permutation_refl. Defined.

(** ** [Do], continued *)

Lemma Clean_not_empty (path : string) : Clean path <> "".
Proof.
  unfold Clean. cbv zeta.
  destruct (String.eqb_spec
              ((if prefix sep path then sep else "")
               ++ join_with sep (rev (fold_left (clean_step (prefix sep path))
                                        (Split path sep) []))) "") as [E|E].
  - discriminate.
  - exact E.
Qed.

Lemma Join_not_empty (elems : list string) :
  (exists e, In e elems /\ e <> "") -> Join elems <> "".
Proof.
  intros (e & Hin & Hne). unfold Join.
  destruct (filter (fun e => negb (e =? "")) elems) as [|x l] eqn:E.
  - exfalso. assert (H : In e (filter (fun e => negb (e =? "")) elems)).
    { apply filter_In. split; [exact Hin|]. apply String.eqb_neq in Hne. now rewrite Hne. }
    rewrite E in H. exact H.
  - apply Clean_not_empty.
Qed.

Lemma bucket_not_empty (b : ascii) : bucket b <> "".
Proof. destruct (bucket_cases b) as [E|(c & E & _)]; rewrite E; discriminate. Qed.

(** X6. [Do] returns an error exactly when the tag cannot be loaded: the
    path is then empty, the error is an [ErrParseTag] and its text names the
    file and the cause.  With a loaded tag no error is ever returned. *)
Theorem Do_error_only_from_loadTag (loadTag : File -> Tag + error) (ConfigTag : Type)
    (len : ConfigTag -> nat) (Contains : ConfigTag -> Tag -> bool)
    (order : list (string * string)) (destination source : string) (f : File)
    (whiteList blackList : ConfigTag) :
  match loadTag f with
  | inr cause =>
      exists err,
        Do loadTag ConfigTag len Contains order destination source f whiteList blackList
        = Returned ("", Some err)
        /\ errors_Is err ErrParseTag = true
        /\ Error err = "failed to parse mp3 tag from " ++ Name f ++ ": " ++ Error cause
  | inl _ =>
      forall path err,
        Do loadTag ConfigTag len Contains order destination source f whiteList blackList
        <> Returned (path, Some err)
  end.
Proof.
  unfold Do. destruct (loadTag f) as [tag|cause].
  - intros path err.
    destruct (_ || _); [discriminate|].
    destruct (Info f) as [info|]; [|discriminate].
    unfold getFileName. cbv zeta.
    destruct (getSubFolder (Name f) source); discriminate.
  - eexists. split; [reflexivity|]. split; reflexivity.
Qed.

(** X7. When [Do] returns without an error, the path is empty exactly when
    the filter rejected the tag: a file that is let through always gets a
    path that is not empty. *)
Theorem Do_empty_path_iff_rejected (loadTag : File -> Tag + error) (ConfigTag : Type)
    (len : ConfigTag -> nat) (Contains : ConfigTag -> Tag -> bool)
    (order : list (string * string)) (destination source : string) (f : File)
    (whiteList blackList : ConfigTag) (tag : Tag) (path : string) :
  loadTag f = inl tag ->
  Do loadTag ConfigTag len Contains order destination source f whiteList blackList
  = Returned (path, None) ->
  (path = "" <-> rejected len Contains whiteList blackList tag = true).
Proof.
  intros Hload. unfold Do, rejected. rewrite Hload.
  destruct (_ || _).
  - intros [= <-]. tauto.
  - destruct (Info f) as [info|]; [|discriminate].
    unfold getFileName. cbv zeta.
    rewrite getSubFolder_unfold.
    destruct (get 0 _) as [b|]; [|discriminate].
    intros [= <-]. split; [|discriminate].
    intros H. exfalso. revert H. apply Join_not_empty.
    exists (bucket b). split; [right; now left | apply bucket_not_empty].
Qed.

Lemma Do_empty_path_iff_rejected_witness :
  ("/player/Q/Queen - Greatest Hits (1981) - 05 - Bohemian Rhapsody.mp3" = ""
   <-> rejected (@List.length string) artist_in ["Queen"; "Abba"] [] queen = true).
Proof.
  apply (Do_empty_path_iff_rejected (fun _ => inl queen) (list string) (@List.length string)
           artist_in chars "/player" "/music" queen_file ["Queen"; "Abba"] [] queen).
  - reflexivity.
  - vm_compute. reflexivity.
Defined.

(** ** The subfolder, continued *)

Lemma replaceFrom_skip_then_stop (old new a s : string) :
  replaceFrom old new (String.length a) 0 (a ++ s) = s.
Proof.
  induction a as [|x a IH]; simpl.
  - now destruct s.
  - exact IH.
Qed.

(** Removing the first occurrence of a prefix leaves the rest. *)
Lemma Replace_prefix (old s : string) : old <> "" -> Replace (old ++ s) old "" 1 = s.
Proof.
  intros Hne. unfold Replace. destruct old as [|c o]; [congruence|].
  cbn [append replaceFrom]. change (1 =? 0)%Z with false. cbv iota.
  change (String c (o ++ s)) with (String c o ++ s). rewrite prefix_app.
  replace (String.length (String c o) - 1) with (String.length o)
    by (cbn [String.length]; lia).
  cbn [append]. apply replaceFrom_skip_then_stop.
Qed.

Lemma bucket_by_letter (c : ascii) :
  bucket c
  = if byte_in "a" "z" c then String (upper_byte c) ""
    else if byte_in "A" "Z" c then String c ""
         else numericSubfolder.
Proof.
  destruct c as [[|] [|] [|] [|] [|] [|] [|] [|]]; vm_compute; reflexivity.
Qed.

(** X8. For a file below the source, [getSubFolder] looks at the first byte
    after "source/" only: a letter gives that letter as a capital, any
    other byte gives the numeric bucket. *)
Theorem getSubFolder_below_source (source rest : string) (c : ascii) :
  c <> PathSeparator ->
  getSubFolder (source ++ sep ++ String c rest) source
  = Returned (if byte_in "a" "z" c then String (upper_byte c) ""
              else if byte_in "A" "Z" c then String c ""
                   else numericSubfolder).
Proof.
  intros Hc. rewrite getSubFolder_unfold, <- bucket_by_letter.
  rewrite <- app_assoc_str, Replace_prefix by (destruct source; discriminate).
  unfold Split. rewrite (splitFrom_byte c rest "" Hc).
  destruct (splitFrom_hd sep rest O ("" ++ String c "")) as (x & l & E).
  rewrite E. reflexivity.
Qed.

Lemma getSubFolder_below_source_witness :
  getSubFolder ("/music" ++ sep ++ String "a" "bba/song.mp3") "/music" = Returned "A"
  /\ getSubFolder ("/music" ++ sep ++ String "1" "23/song.mp3") "/music" = Returned "#".
Proof.
  split.
  - apply (getSubFolder_below_source "/music" "bba/song.mp3" "a"). discriminate.
  - apply (getSubFolder_below_source "/music" "23/song.mp3" "1"). discriminate.
Defined.

(** ** The prompts *)

Lemma lower_byte_is (c x : ascii) :
  byte_in "a" "z" c = true ->
  (Ascii.eqb (lower_byte x) c = Ascii.eqb x c || Ascii.eqb x (upper_byte c)).
Proof.
  intros Hc. revert Hc.
  destruct c as [[|] [|] [|] [|] [|] [|] [|] [|]]; try discriminate; intros _;
    destruct x as [[|] [|] [|] [|] [|] [|] [|] [|]]; vm_compute; reflexivity.
Qed.

Lemma ToLower_eqb_letter (t : string) (c : ascii) :
  byte_in "a" "z" c = true ->
  (ToLower t =? String c "") = (t =? String c "") || (t =? String (upper_byte c) "").
Proof.
  intros Hc. destruct t as [|x [|y r]].
  - reflexivity.
  - unfold ToLower. cbn [map_bytes String.eqb].
    rewrite (lower_byte_is c x Hc).
    destruct (Ascii.eqb x c), (Ascii.eqb x (upper_byte c)); reflexivity.
  - unfold ToLower. cbn [map_bytes String.eqb].
    destruct (Ascii.eqb _ c), (Ascii.eqb x c), (Ascii.eqb x (upper_byte c)); reflexivity.
Qed.

Lemma ToLower_n (t : string) : (ToLower t =? "n") = declines t.
Proof. apply (ToLower_eqb_letter t "n"). reflexivity. Qed.

Lemma ToLower_s (t : string) : (ToLower t =? "s") = asks_to_show t.
Proof. apply (ToLower_eqb_letter t "s"). reflexivity. Qed.

Lemma for_each_Println (A : Type) (wr : Writer) (text : A -> string) (l : list A) (w : World) :
  for_each (fun x => Println wr (text x)) l w = (tt, add_trace w (print_lines wr (map text l))).
Proof.
  revert w. induction l as [|x l IH]; intros w.
  - simpl. unfold ret. now rewrite add_trace_nil.
  - cbn [for_each]. unfold bind at 1. unfold Println at 1, Print, emit.
    fold (add_trace w [EvPrint wr (text x ++ newline)]).
    rewrite IH, add_trace_app. reflexivity.
Qed.

Lemma showErrors_run (logFileName : string) (errs : list error) (w : World) :
  let t := hd "" (answers w) in
  showErrors logFileName errs w
  = (if declines t then Some (Sentinel errAbortedByUser) else None,
     add_trace (pop_answer w)
       (EvPrint errFormat ("found " ++ format_d (Z.of_nat (List.length errs))
                             ++ " errors" ++ newline)
        :: EvPrompt "Continue (errored files will be skipped)? [Y/n/s = show files] " t
        :: EvPrint errFormat ("logged errors in file " ++ logFileName ++ newline)
        :: (if declines t then []
            else if asks_to_show t then print_lines errFormat (map Error errs) else []))).
Proof.
  intros t. unfold showErrors.
  unfold bind at 1. unfold Print at 1, emit. cbv beta iota.
  rewrite bind_prompt. cbn [answers]. fold t. cbv beta.
  unfold bind at 1. unfold Print at 1, emit. cbv beta iota.
  rewrite ToLower_n, ToLower_s.
  unfold prompt_Input, add_trace, pop_answer. cbn [snd answers ticks files trace].
  destruct (declines t).
  - unfold ret. now rewrite <- !app_assoc.
  - destruct (asks_to_show t).
    + unfold bind. rewrite (for_each_Println error errFormat Error errs).
      unfold ret, add_trace. cbn [answers ticks files trace].
      now rewrite <- !app_assoc.
    + unfold ret. now rewrite <- !app_assoc.
Qed.

(** X9. [showErrors] prints the number of errors, asks once, prints the
    name of the log file, and then: on "n" or "N" it returns
    [errAbortedByUser]; on "s" or "S" it prints every error, one per line
    and in order, and returns nil; on any other answer, the empty one
    included, it returns nil and prints nothing more. *)
Theorem showErrors_answers (logFileName : string) (errs : list error) (w : World) :
  let t := hd "" (answers w) in
  showErrors logFileName errs w
  = (if declines t then Some (Sentinel errAbortedByUser) else None,
     add_trace (pop_answer w)
       (EvPrint errFormat ("found " ++ format_d (Z.of_nat (List.length errs))
                             ++ " errors" ++ newline)
        :: EvPrompt "Continue (errored files will be skipped)? [Y/n/s = show files] " t
        :: EvPrint errFormat ("logged errors in file " ++ logFileName ++ newline)
        :: (if declines t then []
            else if asks_to_show t then print_lines errFormat (map Error errs) else []))).
Proof.
  intros t. unfold showErrors.
  unfold bind at 1. unfold Print at 1, emit. cbv beta iota.
  rewrite bind_prompt. cbn [answers]. fold t. cbv beta.
  unfold bind at 1. unfold Print at 1, emit. cbv beta iota.
  rewrite ToLower_n, ToLower_s.
  unfold prompt_Input, add_trace, pop_answer. cbn [snd answers ticks files trace].
  destruct (declines t).
  - unfold ret. now rewrite <- !app_assoc.
  - destruct (asks_to_show t).
    + unfold bind. rewrite (for_each_Println error errFormat Error errs).
      unfold ret, add_trace. cbn [answers ticks files trace].
      now rewrite <- !app_assoc.
    + unfold ret. now rewrite <- !app_assoc.
Qed.

Lemma listDiff_run (plan : list sync.File_) (w : World) :
  let t := hd "" (answers w) in
  Sync1.listDiff plan w
  = (tt,
     add_trace (pop_answer w)
       (EvPrint listFormat ("Total files to sync: "
                              ++ format_d (Z.of_nat (List.length plan)) ++ newline)
        :: EvPrompt "Show Diff? [Y/n] " t
        :: (if declines t then []
            else print_lines listFormat
                   (map (fun v => Name (sync.Destination v)) plan)))).
Proof.
  intros t. unfold Sync1.listDiff.
  unfold bind at 1. unfold Print at 1, emit. cbv beta iota.
  rewrite bind_prompt. cbn [answers]. fold t. cbv beta.
  rewrite ToLower_n.
  unfold prompt_Input, add_trace, pop_answer. cbn [snd answers ticks files trace].
  destruct (declines t); cbn [negb].
  - unfold ret. now rewrite <- !app_assoc.
  - rewrite (for_each_Println sync.File_ listFormat (fun v => Name (sync.Destination v)) plan).
    unfold add_trace. cbn [answers ticks files trace].
    now rewrite <- !app_assoc.
Qed.

(** X10. [listDiff] prints the number of files of the plan, asks once, and
    prints the destination of every entry, one per line and in the order of
    the plan, unless the answer is "n" or "N". *)
Theorem listDiff_prints (plan : list sync.File_) (w : World) :
  let t := hd "" (answers w) in
  Sync1.listDiff plan w
  = (tt,
     add_trace (pop_answer w)
       (EvPrint listFormat ("Total files to sync: "
                              ++ format_d (Z.of_nat (List.length plan)) ++ newline)
        :: EvPrompt "Show Diff? [Y/n] " t
        :: (if declines t then []
            else print_lines listFormat
                   (map (fun v => Name (sync.Destination v)) plan)))).
Proof.
  intros t. unfold Sync1.listDiff.
  unfold bind at 1. unfold Print at 1, emit. cbv beta iota.
  rewrite bind_prompt. cbn [answers]. fold t. cbv beta.
  rewrite ToLower_n.
  unfold prompt_Input, add_trace, pop_answer. cbn [snd answers ticks files trace].
  destruct (declines t); cbn [negb].
  - unfold ret. now rewrite <- !app_assoc.
  - rewrite (for_each_Println sync.File_ listFormat (fun v => Name (sync.Destination v)) plan).
    unfold add_trace. cbn [answers ticks files trace].
    now rewrite <- !app_assoc.
Qed.

(** ** The copy loop, continued *)

Lemma snycFiles_run (Filter : Type) (env : Sync1.Env Filter)
    (plan : list sync.File_) (w : World) :
  let t := hd "" (answers w) in
  if declines t then
    Sync1.snycFiles Filter env plan w
    = ([Sentinel errAbortedByUser], add_trace (pop_answer w) [EvPrompt start_question t])
  else
    exists outcomes,
      map fst outcomes = plan
      /\ Sync1.snycFiles Filter env plan w
         = (failed outcomes,
            add_trace (pop_answer w) (EvPrompt start_question t :: map copy_event outcomes)).
Proof.
  intros t. unfold Sync1.snycFiles. rewrite bind_prompt. fold t. cbv beta.
  rewrite ToLower_n. destruct (declines t).
  - reflexivity.
  - destruct (copyAll_outcomes Filter env plan [] (snd (prompt_Input "Start Sync? [Y/n] " w)))
      as (outcomes & Hplan & Hrun).
    exists outcomes. split; [exact Hplan|]. rewrite Hrun.
    unfold prompt_Input, add_trace, pop_answer. cbn [snd answers ticks files trace app].
    fold t. now rewrite <- app_assoc.
Qed.

(** X11. [snycFiles] asks once.  On "n" or "N" it returns the one error
    [errAbortedByUser] and calls [sync.Do] for no file, whatever the plan;
    on any other answer, the empty one included, it calls [sync.Do] once
    for every entry of the plan, in order, and returns the errors of those
    calls. *)
Theorem snycFiles_answers (Filter : Type) (env : Sync1.Env Filter)
    (plan : list sync.File_) (w : World) :
  let t := hd "" (answers w) in
  if declines t then
    Sync1.snycFiles Filter env plan w
    = ([Sentinel errAbortedByUser], add_trace (pop_answer w) [EvPrompt start_question t])
  else
    exists outcomes,
      map fst outcomes = plan
      /\ Sync1.snycFiles Filter env plan w
         = (failed outcomes,
            add_trace (pop_answer w) (EvPrompt start_question t :: map copy_event outcomes)).
Proof.
  intros t. unfold Sync1.snycFiles. rewrite bind_prompt. fold t. cbv beta.
  rewrite ToLower_n. destruct (declines t).
  - reflexivity.
  - destruct (copyAll_outcomes Filter env plan [] (snd (prompt_Input "Start Sync? [Y/n] " w)))
      as (outcomes & Hplan & Hrun).
    exists outcomes. split; [exact Hplan|]. rewrite Hrun.
    unfold prompt_Input, add_trace, pop_answer. cbn [snd answers ticks files trace app].
    fold t. now rewrite <- app_assoc.
Qed.

(** ** The plan *)

Lemma diff_body_acc (Filter : Type) (env : Sync1.Env Filter) (destination source : string)
    (acc : list sync.File_ * list error) (v : File) :
  Sync1.diff_body Filter env destination source acc v
  = ((fst acc ++ fst (diff_one Filter env destination source v))%list,
     (snd acc ++ snd (diff_one Filter env destination source v))%list).
Proof.
  unfold diff_one, Sync1.diff_body. destruct acc as [plan errs]. cbn [fst snd].
  destruct (Sync1.transform_Do Filter env destination source v) as [name [err|]].
  - cbn [fst snd app]. now rewrite app_nil_r.
  - cbv zeta.
    destruct (if Sync1.FileOrPathExists Filter env name
              then match Sync1.Lstat Filter env name with
                   | inl info => inl (Some info)
                   | inr err => inr err
                   end
              else inl None) as [info|err].
    + destruct (negb _); cbn [fst snd app]; now rewrite ?app_nil_r.
    + cbn [fst snd app]. now rewrite app_nil_r.
Qed.

Lemma diff_fold (Filter : Type) (env : Sync1.Env Filter) (destination source : string)
    (l : list File) :
  forall acc,
    fold_left (Sync1.diff_body Filter env destination source) l acc
    = ((fst acc ++ fst (Sync1.diff Filter env l destination source))%list,
       (snd acc ++ snd (Sync1.diff Filter env l destination source))%list).
Proof.
  unfold Sync1.diff. induction l as [|v l IH]; intros acc.
  - simpl. rewrite !app_nil_r. now destruct acc.
  - cbn [fold_left]. rewrite (IH (Sync1.diff_body _ _ _ _ acc v)).
    rewrite (IH (Sync1.diff_body _ _ _ _ ([], []) v)).
    rewrite (diff_body_acc Filter env destination source acc v).
    fold (diff_one Filter env destination source v). cbn [fst snd].
    now rewrite !app_assoc.
Qed.

Lemma diff_cons (Filter : Type) (env : Sync1.Env Filter) (destination source : string)
    (v : File) (l : list File) :
  Sync1.diff Filter env (v :: l) destination source
  = ((fst (diff_one Filter env destination source v)
      ++ fst (Sync1.diff Filter env l destination source))%list,
     (snd (diff_one Filter env destination source v)
      ++ snd (Sync1.diff Filter env l destination source))%list).
Proof.
  unfold Sync1.diff at 1. cbn [fold_left].
  fold (diff_one Filter env destination source v). apply diff_fold.
Qed.

(** X12. [diff] judges every file on its own: the plan and the errors for a
    list of files are those of its parts, one after the other, so an error
    for one file changes nothing for the others. *)
Theorem diff_app (Filter : Type) (env : Sync1.Env Filter) (destination source : string)
    (a b : list File) :
  Sync1.diff Filter env (a ++ b) destination source
  = ((fst (Sync1.diff Filter env a destination source)
      ++ fst (Sync1.diff Filter env b destination source))%list,
     (snd (Sync1.diff Filter env a destination source)
      ++ snd (Sync1.diff Filter env b destination source))%list).
Proof.
  unfold Sync1.diff at 1. rewrite fold_left_app.
  fold (Sync1.diff Filter env a destination source). apply diff_fold.
Qed.

Lemma diff_one_cases (Filter : Type) (env : Sync1.Env Filter) (destination source : string)
    (v : File) :
  let r := diff_one Filter env destination source v in
  List.length (fst r) + List.length (snd r) <= 1
  /\ (forall f, In f (fst r) ->
        sync.Source f = v
        /\ Sync1.IsInSync Filter env f = false
        /\ Sync1.transform_Do Filter env destination source v
           = (Name (sync.Destination f), None))
  /\ (forall err, In err (snd r) ->
        snd (Sync1.transform_Do Filter env destination source v) = Some err
        \/ Sync1.Lstat Filter env (fst (Sync1.transform_Do Filter env destination source v))
           = inr err).
Proof.
  unfold diff_one, Sync1.diff_body. cbv zeta.
  destruct (Sync1.transform_Do Filter env destination source v) as [name [err|]].
  - cbn [fst snd app List.length]. split; [lia|]. split.
    + intros f [].
    + intros e [<-|[]]. now left.
  - destruct (Sync1.FileOrPathExists Filter env name).
    + destruct (Sync1.Lstat Filter env name) as [info|err] eqn:EL.
      * destruct (Sync1.IsInSync Filter env _) eqn:E; cbn [negb fst snd app List.length].
        -- split; [lia|]. split; [intros f [] | intros e []].
        -- split; [lia|]. split; [|intros e []].
           intros f [<-|[]]. cbn [sync.Source sync.Destination Name]. now repeat split.
      * cbn [fst snd app List.length]. split; [lia|]. split; [intros f []|].
        intros e [<-|[]]. right. exact EL.
    + destruct (Sync1.IsInSync Filter env _) eqn:E; cbn [negb fst snd app List.length].
      * split; [lia|]. split; [intros f [] | intros e []].
      * split; [lia|]. split; [|intros e []].
        intros f [<-|[]]. cbn [sync.Source sync.Destination Name]. now repeat split.
Qed.

(** X13. Every entry of the plan of [diff] is one of the listed files that
    is not in sync, together with the destination that [transform.Do] gave
    without an error; every error is the error of [transform.Do] or of
    [os.Lstat] for one of the listed files; and a file gives at most one
    entry or one error, so plan and errors together are no longer than the
    list. *)
Theorem diff_sound (Filter : Type) (env : Sync1.Env Filter) (destination source : string)
    (fileList : list File) :
  let r := Sync1.diff Filter env fileList destination source in
  List.length (fst r) + List.length (snd r) <= List.length fileList
  /\ (forall f, In f (fst r) ->
        In (sync.Source f) fileList
        /\ Sync1.IsInSync Filter env f = false
        /\ Sync1.transform_Do Filter env destination source (sync.Source f)
           = (Name (sync.Destination f), None))
  /\ (forall err, In err (snd r) ->
        exists v, In v fileList
          /\ (snd (Sync1.transform_Do Filter env destination source v) = Some err
              \/ Sync1.Lstat Filter env
                   (fst (Sync1.transform_Do Filter env destination source v)) = inr err)).
Proof.
  cbv zeta. induction fileList as [|v l (IHlen & IHplan & IHerr)].
  - cbn. split; [lia|]. split; [intros f [] | intros e []].
  - rewrite diff_cons. cbn [fst snd].
    destruct (diff_one_cases Filter env destination source v) as (Hlen & Hplan & Herr).
    cbv zeta in Hlen, Hplan, Herr.
    split; [|split].
    + rewrite !length_app. cbn [List.length]. lia.
    + intros f Hf. apply in_app_or in Hf. destruct Hf as [Hf|Hf].
      * destruct (Hplan f Hf) as (Hs & Hi & Ht). rewrite Hs.
        split; [now left|]. now split.
      * destruct (IHplan f Hf) as (Hs & Hi & Ht). split; [now right|]. now split.
    + intros e He. apply in_app_or in He. destruct He as [He|He].
      * exists v. split; [now left | now apply Herr].
      * destruct (IHerr e He) as (v' & Hv' & H). exists v'. split; [now right | exact H].
Qed.

(** ** The log writer, continued *)

Lemma opened_files (w : World) (name : string) :
  files (opened w name) name = Some (content w name)
  /\ (forall other, other <> name -> files (opened w name) other = files w other)
  /\ trace (opened w name) = trace w
  /\ answers (opened w name) = answers w.
Proof.
  unfold opened, content, tick, set_file. cbn [files].
  destruct (files w name) eqn:E; cbn [files trace answers].
  - rewrite E. repeat split.
  - rewrite String.eqb_refl. repeat split.
    intros other Hne. apply String.eqb_neq in Hne. now rewrite Hne.
Qed.

Lemma logErrors_opened (pf : Platform) (errs : list error) (w : World) :
  let name := log_file_name (clock pf (ticks w)) in
  valid_time (clock pf (ticks w)) ->
  OpenFile_fails pf name = None ->
  logErrors pf errs w
  = ((name, fst (writeLines pf {| h_name := name; h_writable := append_implies_write pf |}
                   errs (opened w name))),
     snd (writeLines pf {| h_name := name; h_writable := append_implies_write pf |}
            errs (opened w name))).
Proof.
  intros name Ht Hopen.
  rewrite logErrors_unfold, (logFileName_valid _ Ht). fold name. cbv zeta.
  rewrite (logErrors_handle pf name (tick w) Hopen). fold (opened w name).
  destruct (writeLines pf _ errs (opened w name)) as [[err|] w2]; reflexivity.
Qed.







Lemma logErrors_returns_name (pf : Platform) (errs : list error) (w : World) :
  fst (fst (logErrors pf errs w))
  = Join ["."; logPath; Format (clock pf (ticks w)) logFileNameFormat ++ ".log"].
Proof.
  rewrite logErrors_unfold. cbv zeta.
  destruct (OpenFile pf _ _ _ _) as [[h|err] w1]; [|reflexivity].
  destruct (writeLines pf h errs w1) as [[err|] w2]; reflexivity.
Qed.

(** X16. When the file cannot be opened, [logErrors] returns the name it
    tried together with the failure wrapped as [errWriteLog]; no file is
    made or changed and nothing is printed. *)
Theorem logErrors_open_fails (pf : Platform) (errs : list error) (cause : error) (w : World) :
  let name := log_file_name (clock pf (ticks w)) in
  let run := logErrors pf errs w in
  valid_time (clock pf (ticks w)) ->
  OpenFile_fails pf name = Some cause ->
  fst run = (name, Some (ErrWrap ("failed to write log file: " ++ Error cause)
                           (Sentinel errWriteLog)))
  /\ errors_Is (ErrWrap ("failed to write log file: " ++ Error cause) (Sentinel errWriteLog))
       errWriteLog = true
  /\ files (snd run) = files w
  /\ trace (snd run) = trace w.
Proof.
  intros name run Ht Hopen. unfold run.
  rewrite logErrors_unfold, (logFileName_valid _ Ht). fold name. cbv zeta.
  unfold OpenFile. rewrite Hopen. now repeat split.
Qed.

Lemma logErrors_open_fails_witness :
  let pf := {| clock := fun _ => noon; append_implies_write := true;
               OpenFile_fails := fun name =>
                 Some (ErrNew ("open " ++ name ++ ": no such file or directory"));
               WriteString_fails := fun _ _ => None |} in
  fst (logErrors pf [ErrNew "a.mp3: bad tag"] (demo_world []))
  = (log_file_name noon,
     Some (ErrWrap ("failed to write log file: "
                      ++ Error (ErrNew ("open " ++ log_file_name noon
                                          ++ ": no such file or directory")))
             (Sentinel errWriteLog))).
Proof.
  intros pf.
  pose proof (logErrors_open_fails pf [ErrNew "a.mp3: bad tag"]
                (ErrNew ("open " ++ log_file_name noon ++ ": no such file or directory"))
                (demo_world [])) as H.
  cbv zeta in H. destruct H as (H & _).
  - vm_compute. repeat split; apply Nat.leb_le; reflexivity.
  - reflexivity.
  - exact H.
Defined.

(** X17. The name that [logErrors] returns depends on the clock alone, and
    names compare as texts the way the clock readings compare in time: a
    later log has a greater name, and two logs have the same name only when
    written in the same second. *)
Theorem logErrors_names_follow_clock (pf : Platform) (errs1 errs2 : list error)
    (w1 w2 : World) :
  valid_time (clock pf (ticks w1)) ->
  valid_time (clock pf (ticks w2)) ->
  String.compare (fst (fst (logErrors pf errs1 w1))) (fst (fst (logErrors pf errs2 w2)))
  = time_compare (clock pf (ticks w1)) (clock pf (ticks w2))
  /\ (fst (fst (logErrors pf errs1 w1)) = fst (fst (logErrors pf errs2 w2))
      <-> clock pf (ticks w1) = clock pf (ticks w2)).
Proof.
  intros H1 H2. rewrite !logErrors_returns_name.
  rewrite (logFileName_valid _ H1), (logFileName_valid _ H2).
  assert (Hc := log_file_name_compare _ _ H1 H2).
  split; [exact Hc|]. split.
  - intros E. rewrite E in Hc.
    assert (Heq : time_compare (clock pf (ticks w1)) (clock pf (ticks w2)) = Eq).
    { rewrite <- Hc. rewrite <- (app_empty_r (log_file_name _)).
      now rewrite compare_same_prefix. }
    clear Hc E. unfold time_compare in Heq.
    destruct (clock pf (ticks w1)) as [y m d h mi s].
    destruct (clock pf (ticks w2)) as [y' m' d' h' mi' s']. cbn [year month day hour minute second] in Heq.
    destruct (Nat.compare_spec y y'); try discriminate.
    destruct (Nat.compare_spec m m'); try discriminate.
    destruct (Nat.compare_spec d d'); try discriminate.
    destruct (Nat.compare_spec h h'); try discriminate.
    destruct (Nat.compare_spec mi mi'); try discriminate.
    destruct (Nat.compare_spec s s'); try discriminate.
    now subst.
  - intros ->. reflexivity.
Qed.

Lemma logErrors_names_follow_clock_witness :
  let pf := {| clock := fun n => if (n =? 0)%nat then noon
                                 else {| year := 2021; month := 3; day := 10;
                                         hour := 0; minute := 0; second := 0 |};
               append_implies_write := true;
               OpenFile_fails := fun _ => None; WriteString_fails := fun _ _ => None |} in
  String.compare
    (fst (fst (logErrors pf [ErrNew "a"] (demo_world []))))
    (fst (fst (logErrors pf [ErrNew "b"] (tick (demo_world [])))))
  = time_compare noon {| year := 2021; month := 3; day := 10;
                         hour := 0; minute := 0; second := 0 |}.
Proof.
  intros pf.
  apply (logErrors_names_follow_clock pf [ErrNew "a"] [ErrNew "b"]
           (demo_world []) (tick (demo_world []))).
  - vm_compute. repeat split; apply Nat.leb_le; reflexivity.
  - vm_compute. repeat split; apply Nat.leb_le; reflexivity.
Defined.

(** X18. Where a handle opened for appending may not be written, and the
    file can be opened, [logErrors] returns no error exactly when the list
    of errors is empty; in every case the file exists afterwards with the
    content it had before (none when it was missing). *)
Theorem logErrors_without_write_access (pf : Platform) (errs : list error) (w : World) :
  let name := log_file_name (clock pf (ticks w)) in
  let run := logErrors pf errs w in
  append_implies_write pf = false ->
  valid_time (clock pf (ticks w)) ->
  OpenFile_fails pf name = None ->
  (snd (fst run) = None <-> errs = [])
  /\ files (snd run) name = Some (content w name).
Proof.
  intros name run Happ Ht Hopen. unfold run.
  destruct errs as [|e errs].
  - rewrite (logErrors_opened pf [] w Ht Hopen). fold name. cbn [writeLines ret fst snd].
    split; [tauto|]. apply opened_files.
  - destruct (logErrors_read_only pf e errs w Happ Ht Hopen) as (Hr & _ & Hf).
    fold name in Hr, Hf. rewrite Hr. cbn [fst snd].
    split; [split; discriminate | exact Hf].
Qed.

Lemma logErrors_without_write_access_witness :
  (snd (fst (logErrors (demo_platform false) [ErrNew "a.mp3: bad tag"] (demo_world []))) = None
   <-> [ErrNew "a.mp3: bad tag"] = [])
  /\ files (snd (logErrors (demo_platform false) [ErrNew "a.mp3: bad tag"] (demo_world [])))
       (log_file_name noon)
     = Some (content (demo_world []) (log_file_name noon)).
Proof.
  apply (logErrors_without_write_access (demo_platform false) [ErrNew "a.mp3: bad tag"]
           (demo_world [])).
  - reflexivity.
  - vm_compute. repeat split; apply Nat.leb_le; reflexivity.
  - reflexivity.
Defined.

(** ** Whole runs *)

Lemma do_sync_after_sync (Filter : Type) (pf : Platform) (env : Sync1.Env Filter)
    (globErr : bool) (plan : list sync.File_) :
  Sync1.do_sync Filter pf env globErr plan
  = bind (Sync1.snycFiles Filter env plan) (after_sync pf globErr).
Proof. reflexivity. Qed.

Lemma Ret_ret {A : Type} (a : A) (P : A -> Prop) : P a -> Ret (ret a) P.
Proof. intros H w. exact H. Qed.

Lemma Ret_bind {A B : Type} (m : M A) (k : A -> M B) (P : A -> Prop) (Q : B -> Prop) :
  Ret m P -> (forall a, P a -> Ret (k a) Q) -> Ret (bind m k) Q.
Proof.
  intros Hm Hk w. unfold bind. specialize (Hm w). destruct (m w) as [a w1].
  exact (Hk a Hm w1).
Qed.

Lemma Ret_any {A : Type} (m : M A) : Ret m (fun _ => True).
Proof. intros w. exact I. Qed.

(** Once [globErr] is set, what follows the executor never returns nil. *)
Lemma after_sync_globErr (pf : Platform) (errs : list error) :
  Ret (after_sync pf true errs) (fun r => r <> None).
Proof.
  unfold after_sync.
  apply Ret_bind with (P := fun r => r <> inr false).
  - destruct (1 <? List.length errs)%nat; [|now apply Ret_ret].
    destruct (errors_Is _ _); [now apply Ret_ret|].
    apply Ret_bind with (P := fun _ => True); [apply Ret_any|].
    intros [name [err|]] _; [now apply Ret_ret|].
    apply Ret_bind with (P := fun _ => True); [apply Ret_any | intros _ _].
    apply Ret_bind with (P := fun _ => True); [apply Ret_any | intros _ _].
    now apply Ret_ret.
  - intros [err|[|]] H; [now apply Ret_ret | now apply Ret_ret | congruence].
Qed.

(** X19. A run in which a tag error came up never ends as a success, in
    either revision: whatever the user answers and whether or not the
    copies succeed, [do] returns an error. *)
Theorem do_tag_errors_never_success (Filter ConfigTag Transformed : Type) (pf : Platform)
    (env1 : Sync1.Env Filter) (env2 : Sync2.Env Filter ConfigTag Transformed)
    (conf : config.Config Filter) (w : World) :
  (forall fileList,
     Sync1.GetFileList Filter env1 (config.Source conf) (config.Filter_ conf) = inl fileList ->
     snd (Sync1.diff Filter env1 fileList (config.Destination conf) (config.Source conf)) <> [] ->
     fst (Sync1.do Filter pf env1 conf w) <> None)
  /\ (snd (Sync2.transform_Do Filter ConfigTag Transformed env2
             (Sync2.Files (Sync2.readFileList Filter ConfigTag Transformed env2
                             (config.Source conf) (Some (config.Filter_ conf))))
             (config.Destination conf) (config.Source conf)
             (Sync2.MP3Tag Filter ConfigTag Transformed env2 (config.Filter_ conf)
                Sync2.KeyWhitelist)
             (Sync2.MP3Tag Filter ConfigTag Transformed env2 (config.Filter_ conf)
                Sync2.KeyBlacklist)) <> [] ->
      fst (Sync2.do Filter ConfigTag Transformed pf env2 conf w) <> None).
Proof.
  split.
  - intros fileList Hlist Herrs.
    assert (H : Ret (Sync1.do Filter pf env1 conf) (fun r => r <> None)); [|exact (H w)].
    unfold Sync1.do.
    destruct (negb _); [now apply Ret_ret|].
    destruct (negb _); [now apply Ret_ret|].
    unfold Sync1.readFileList. rewrite Hlist.
    destruct (Sync1.diff Filter env1 fileList _ _) as [plan errs]. cbn [snd] in Herrs.
    destruct errs as [|e errs]; [congruence|]. cbn [List.length Nat.ltb Nat.leb].
    apply Ret_bind with (P := fun x => snd x = true).
    { apply Ret_bind with (P := fun _ => True); [apply Ret_any|].
      intros r _. now apply Ret_ret. }
    intros [[err|] globErr] Hg; [now apply Ret_ret|]. cbn [snd] in Hg. subst globErr.
    apply Ret_bind with (P := fun _ => True); [apply Ret_any | intros _ _].
    apply Ret_bind with (P := fun _ => True); [apply Ret_any | intros [err|] _].
    + now apply Ret_ret.
    + rewrite do_sync_after_sync.
      apply Ret_bind with (P := fun _ => True); [apply Ret_any | intros errs2 _].
      apply after_sync_globErr.
  - intros Herrs.
    assert (H : Ret (Sync2.do Filter ConfigTag Transformed pf env2 conf) (fun r => r <> None));
      [|exact (H w)].
    unfold Sync2.do. cbv zeta.
    destruct (Sync2.Err _); [now apply Ret_ret|].
    destruct (Sync2.Err _); [now apply Ret_ret|].
    destruct (Sync2.transform_Do _ _ _ env2 _ _ _ _ _) as [transformed errs].
    cbn [snd] in Herrs.
    destruct errs as [|e errs]; [congruence|]. cbn [List.length Nat.ltb Nat.leb].
    apply Ret_bind with (P := fun x => snd x = true).
    { apply Ret_bind with (P := fun _ => True); [apply Ret_any|].
      intros r _. now apply Ret_ret. }
    intros [[err|] globErr] Hg; [now apply Ret_ret|]. cbn [snd] in Hg. subst globErr.
    apply Ret_bind with (P := fun _ => True); [apply Ret_any | intros _ _].
    destruct (Sync2.CalculateDiskSpace _ _ _ env2 _ _) as [ds [err|]]; [now apply Ret_ret|].
    apply Ret_bind with (P := fun _ => True); [apply Ret_any | intros _ _].
    apply Ret_bind with (P := fun _ => True); [apply Ret_any | intros _ _].
    apply Ret_bind with (P := fun _ => True); [apply Ret_any | intros _ _].
    apply Ret_bind with (P := fun _ => True); [apply Ret_any | intros t _].
    destruct (ToLower t =? "n"); [now apply Ret_ret|].
    apply Ret_bind with (P := fun _ => True); [apply Ret_any | intros errs2 _].
    apply after_sync_globErr.
Qed.

Lemma do_tag_errors_never_success_witness :
  fst (Sync1.do unit (demo_platform true) (demo_env_bad_tags [song "a.mp3" 10]) demo_conf
         (demo_world [""; ""; ""])) <> None
  /\ fst (Sync2.do unit unit (list File) (demo_platform true) demo_env2_bad_tags demo_conf
            (demo_world [""; ""; ""])) <> None.
Proof.
  pose proof (do_tag_errors_never_success unit unit (list File) (demo_platform true)
                (demo_env_bad_tags [song "a.mp3" 10]) demo_env2_bad_tags demo_conf
                (demo_world [""; ""; ""])) as [H1 H2].
  split.
  - apply (H1 [song "a.mp3" 10]); [reflexivity | discriminate].
  - apply H2. discriminate.
Defined.

Lemma diskSpace_ok (Filter : Type) (env : Sync1.Env Filter) (plan : list sync.File_)
    (destination : string) (free : Z) (w : World) :
  Sync1.disk_GetInfo Filter env destination = inl free ->
  (1 <= space_left free (Sync1.SpaceNeeded Filter env plan))%Z ->
  Sync1.diskSpace Filter env plan destination w
  = (None, add_trace w (diskSpace_lines Filter env free (Sync1.SpaceNeeded Filter env plan))).
Proof.
  intros Hinfo Hleft. unfold Sync1.diskSpace. rewrite Hinfo. cbv zeta.
  fold (space_left free (Sync1.SpaceNeeded Filter env plan)).
  assert (E : (space_left free (Sync1.SpaceNeeded Filter env plan) <? 1)%Z = false)
    by (apply Z.ltb_ge; lia).
  rewrite E. unfold bind, Print, emit, ret, add_trace, diskSpace_lines.
  cbn [fst snd answers ticks files trace]. cbv zeta.
  now rewrite <- !app_assoc.
Qed.

Lemma copyAll_all_succeed (Filter : Type) (env : Sync1.Env Filter) (plan : list sync.File_) :
  (forall f h, In f plan -> Sync1.sync_Do Filter env f h = None) ->
  forall errs w,
    Sync1.copyAll Filter env plan errs w
    = (errs, add_trace w (map (fun f => EvCopy f None) plan)).
Proof.
  induction plan as [|v plan IH]; intros Hok errs w.
  - simpl. unfold ret. now rewrite add_trace_nil.
  - cbn [Sync1.copyAll]. unfold bind, Sync1.call_sync_Do. cbn [emit snd].
    rewrite (Hok v (trace w)) by now left.
    fold (add_trace w [EvCopy v None]).
    rewrite IH by (intros f h Hf; apply Hok; now right).
    now rewrite add_trace_app.
Qed.

(** X20. A run of the first revision without any error: both paths exist,
    the scan succeeds, no file gives an error, the space suffices, the user
    does not decline at "Start Sync?" and every copy succeeds.  Then [do]
    returns nil after exactly two questions, every entry of the plan is
    copied once, in order and right after the second question, and no file
    of the log directory is touched. *)
Theorem do_without_errors (Filter : Type) (pf : Platform) (env : Sync1.Env Filter)
    (conf : config.Config Filter) (fileList : list File) (plan : list sync.File_)
    (free : Z) (w : World) :
  let src := config.Source conf in
  let dst := config.Destination conf in
  let run := Sync1.do Filter pf env conf w in
  let t2 := hd "" (tl (answers w)) in
  Sync1.FileOrPathExists Filter env src = true ->
  Sync1.FileOrPathExists Filter env dst = true ->
  Sync1.GetFileList Filter env src (config.Filter_ conf) = inl fileList ->
  Sync1.diff Filter env fileList dst src = (plan, []) ->
  Sync1.disk_GetInfo Filter env dst = inl free ->
  (1 <= space_left free (Sync1.SpaceNeeded Filter env plan))%Z ->
  declines t2 = false ->
  (forall f h, In f plan -> Sync1.sync_Do Filter env f h = None) ->
  fst run = None
  /\ (exists before,
        trace (snd run)
        = (trace w ++ before ++ EvPrompt start_question t2
                   :: map (fun f => EvCopy f None) plan)%list
        /\ forallb quiet before = true)
  /\ answers (snd run) = tl (tl (answers w))
  /\ files (snd run) = files w.
Proof.
  intros src dst run t2 Hsrc Hdst Hlist Hdiff Hinfo Hleft Ht2 Hcopy.
  assert (Hrun : run
                 = (None,
                    add_trace (pop_answer (pop_answer w))
                      ((EvPrint listFormat
                          ("Total files to sync: "
                             ++ format_d (Z.of_nat (List.length plan)) ++ newline)
                        :: EvPrompt "Show Diff? [Y/n] " (hd "" (answers w))
                        :: (if declines (hd "" (answers w)) then []
                            else print_lines listFormat
                                   (map (fun v => Name (sync.Destination v)) plan)))
                       ++ diskSpace_lines Filter env free (Sync1.SpaceNeeded Filter env plan)
                       ++ EvPrompt start_question t2
                          :: map (fun f => EvCopy f None) plan))).
  { unfold run, Sync1.do. fold src. fold dst. rewrite Hsrc, Hdst. cbn [negb].
    unfold Sync1.readFileList. rewrite Hlist, Hdiff.
    cbn [List.length Nat.ltb Nat.leb]. unfold bind at 1. cbn [ret].
    unfold bind at 1. rewrite (listDiff_run plan w). cbv zeta beta iota.
    unfold bind at 1. rewrite (diskSpace_ok Filter env plan dst free _ Hinfo Hleft).
    rewrite do_sync_after_sync. unfold bind at 1.
    unfold Sync1.snycFiles. rewrite bind_prompt.
    cbn [add_trace pop_answer answers]. fold t2. cbv beta.
    rewrite ToLower_n, Ht2.
    rewrite (copyAll_all_succeed Filter env plan Hcopy).
    unfold after_sync. cbn [List.length Nat.ltb Nat.leb]. unfold bind, ret.
    unfold prompt_Input, add_trace, pop_answer.
    cbn [fst snd answers ticks files trace]. fold t2.
    f_equal. f_equal. rewrite <- !app_assoc. reflexivity. }
  rewrite Hrun. cbn [fst snd add_trace pop_answer answers files trace].
  split; [reflexivity|]. split; [|split; reflexivity].
  eexists. rewrite <- app_assoc. split; [reflexivity|].
  rewrite forallb_app. apply andb_true_iff. split.
  - cbn [forallb]. unfold quiet at 1 2. cbn [is_copy is_start_prompt negb andb].
    change ("Show Diff? [Y/n] " =? start_question) with false. cbn [negb andb].
    destruct (declines (hd "" (answers w))); [reflexivity|].
    unfold print_lines. apply forallb_forall. intros x Hx.
    apply in_map_iff in Hx. destruct Hx as (l & <- & _). reflexivity.
  - reflexivity.
Qed.

Lemma do_without_errors_witness :
  fst (Sync1.do unit (demo_platform false)
         (demo_env [song "a.mp3" 10; song "b.mp3" 20] 1000 (fun _ => false)) demo_conf
         (demo_world ["n"; "y"])) = None
  /\ answers (snd (Sync1.do unit (demo_platform false)
                     (demo_env [song "a.mp3" 10; song "b.mp3" 20] 1000 (fun _ => false))
                     demo_conf (demo_world ["n"; "y"])))
     = tl (tl (answers (demo_world ["n"; "y"]))).
Proof.
  pose proof (do_without_errors unit (demo_platform false)
                (demo_env [song "a.mp3" 10; song "b.mp3" 20] 1000 (fun _ => false)) demo_conf
                [song "a.mp3" 10; song "b.mp3" 20]
                [plan_entry "a.mp3" 10; plan_entry "b.mp3" 20] 1000%Z
                (demo_world ["n"; "y"])) as H.
  cbv zeta in H.
  destruct H as (H1 & _ & H2 & _).
  - reflexivity.
  - reflexivity.
  - reflexivity.
  - vm_compute. reflexivity.
  - reflexivity.
  - vm_compute. discriminate.
  - reflexivity.
  - intros f h _. reflexivity.
  - split; [exact H1 | exact H2].
Defined.

Lemma KeepsAnswers_bind {A B : Type} (m : M A) (k : A -> M B) :
  KeepsAnswers m -> (forall a, KeepsAnswers (k a)) -> KeepsAnswers (bind m k).
Proof.
  intros Hm Hk w. unfold bind. specialize (Hm w). destruct (m w) as [a w1].
  simpl in Hm. now rewrite Hk.
Qed.

Lemma KeepsAnswers_ret {A : Type} (a : A) : KeepsAnswers (ret a).
Proof. intros w. reflexivity. Qed.

Lemma KeepsAnswers_writeLines (pf : Platform) (h : Handle) (errs : list error) :
  KeepsAnswers (writeLines pf h errs).
Proof.
  induction errs as [|e errs IH]; simpl.
  - apply KeepsAnswers_ret.
  - apply KeepsAnswers_bind.
    + intros w. unfold WriteString. destruct (negb (h_writable h)); [reflexivity|].
      destruct (WriteString_fails pf (h_name h) _); reflexivity.
    + intros [err|]; [apply KeepsAnswers_ret | exact IH].
Qed.

Lemma KeepsAnswers_logErrors (pf : Platform) (errs : list error) :
  KeepsAnswers (logErrors pf errs).
Proof.
  unfold logErrors.
  apply KeepsAnswers_bind; [intros w; reflexivity | intros now].
  apply KeepsAnswers_bind.
  - intros w. unfold OpenFile. destruct (OpenFile_fails pf _); [reflexivity|].
    destruct (files w _); [reflexivity|]. destruct (negb _); reflexivity.
  - intros [h|err]; [|apply KeepsAnswers_ret].
    apply KeepsAnswers_bind; [apply KeepsAnswers_writeLines|].
    intros [err|]; apply KeepsAnswers_ret.
Qed.

(** X21. In the first revision, when tag errors came up, the log could be
    written and the user answers "n" or "N" to "Continue?", [do] returns
    [errAbortedByUser] right away: after the three events of [showErrors]
    nothing more is printed, asked or copied. *)
Theorem do_declined_at_continue (Filter : Type) (pf : Platform) (env : Sync1.Env Filter)
    (conf : config.Config Filter) (fileList : list File) (logFileName : string) (w : World) :
  let src := config.Source conf in
  let dst := config.Destination conf in
  let errs := snd (Sync1.diff Filter env fileList dst src) in
  let t := hd "" (answers w) in
  Sync1.FileOrPathExists Filter env src = true ->
  Sync1.FileOrPathExists Filter env dst = true ->
  Sync1.GetFileList Filter env src (config.Filter_ conf) = inl fileList ->
  errs <> [] ->
  fst (logErrors pf errs w) = (logFileName, None) ->
  declines t = true ->
  Sync1.do Filter pf env conf w
  = (Some (Sentinel errAbortedByUser),
     add_trace (pop_answer (snd (logErrors pf errs w)))
       [ EvPrint errFormat ("found " ++ format_d (Z.of_nat (List.length errs))
                              ++ " errors" ++ newline);
         EvPrompt "Continue (errored files will be skipped)? [Y/n/s = show files] " t;
         EvPrint errFormat ("logged errors in file " ++ logFileName ++ newline) ]).
Proof.
  intros src dst errs t Hsrc Hdst Hlist Herrs Hlog Ht.
  unfold Sync1.do. fold src. fold dst. rewrite Hsrc, Hdst. cbn [negb].
  unfold Sync1.readFileList. rewrite Hlist.
  subst errs. destruct (Sync1.diff Filter env fileList dst src) as [plan errs].
  cbn [snd] in *.
  destruct errs as [|e errs]; [congruence|]. cbn [List.length Nat.ltb Nat.leb].
  unfold bind at 1 2. unfold showAndLogErrors. unfold bind at 1.
  assert (Ha := KeepsAnswers_logErrors pf (e :: errs) w).
  destruct (logErrors pf (e :: errs) w) as [[name o] w1]. cbn [fst snd] in *.
  injection Hlog as -> ->.
  rewrite (showErrors_run logFileName (e :: errs) w1). cbv zeta.
  rewrite Ha. fold t. rewrite Ht. reflexivity.
Qed.

Lemma do_declined_at_continue_witness :
  fst (Sync1.do unit (demo_platform true) (demo_env_bad_tags [song "a.mp3" 10]) demo_conf
         (demo_world ["N"; "y"; "y"]))
  = Some (Sentinel errAbortedByUser).
Proof.
  rewrite (do_declined_at_continue unit (demo_platform true)
             (demo_env_bad_tags [song "a.mp3" 10]) demo_conf [song "a.mp3" 10]
             "logs/20210309-120007.log" (demo_world ["N"; "y"; "y"])).
  - reflexivity.
  - reflexivity.
  - reflexivity.
  - reflexivity.
  - discriminate.
  - vm_compute. reflexivity.
  - reflexivity.
Defined.

(** X22. In the second revision, where a handle opened for appending may
    not be written, one tag error is enough to stop the run: [do] returns
    the [errWriteLog] error of [logErrors] without printing, asking or
    copying anything. *)
Theorem do_tag_error_without_write_access (Filter ConfigTag Transformed : Type)
    (pf : Platform) (env : Sync2.Env Filter ConfigTag Transformed)
    (conf : config.Config Filter) (w : World) :
  let sourceResult := Sync2.readFileList Filter ConfigTag Transformed env
                        (config.Source conf) (Some (config.Filter_ conf)) in
  let destinationResult := Sync2.readFileList Filter ConfigTag Transformed env
                             (config.Destination conf) None in
  let errs := snd (Sync2.transform_Do Filter ConfigTag Transformed env
                     (Sync2.Files sourceResult) (config.Destination conf) (config.Source conf)
                     (Sync2.MP3Tag Filter ConfigTag Transformed env (config.Filter_ conf)
                        Sync2.KeyWhitelist)
                     (Sync2.MP3Tag Filter ConfigTag Transformed env (config.Filter_ conf)
                        Sync2.KeyBlacklist)) in
  let name := log_file_name (clock pf (ticks w)) in
  let run := Sync2.do Filter ConfigTag Transformed pf env conf w in
  Sync2.Err sourceResult = None ->
  Sync2.Err destinationResult = None ->
  errs <> [] ->
  append_implies_write pf = false ->
  valid_time (clock pf (ticks w)) ->
  OpenFile_fails pf name = None ->
  fst run = Some (ErrWrap ("failed to write log file: write " ++ name
                             ++ ": bad file descriptor") (Sentinel errWriteLog))
  /\ trace (snd run) = trace w
  /\ answers (snd run) = answers w.
Proof.
  intros sourceResult destinationResult errs name run Hs Hd Herrs Happ Ht Hopen.
  assert (Hrun : exists e l,
             errs = e :: l
             /\ run = (Some (wrapWriteLog (ErrNew ("write " ++ name ++ ": bad file descriptor"))),
                       snd (logErrors pf (e :: l) w))).
  { unfold run, Sync2.do. cbv zeta. fold sourceResult. fold destinationResult.
    rewrite Hs, Hd. subst errs.
    destruct (Sync2.transform_Do _ _ _ env _ _ _ _ _) as [transformed errs].
    cbn [snd] in Herrs |- *.
    destruct errs as [|e errs]; [congruence|]. exists e, errs. split; [reflexivity|].
    cbn [List.length Nat.ltb Nat.leb].
    unfold bind at 1 2. unfold showAndLogErrors. unfold bind at 1.
    destruct (logErrors_read_only pf e errs w Happ Ht Hopen) as (Hr & _ & _).
    fold name in Hr. clearbody name.
    destruct (logErrors pf (e :: errs) w) as [[n o] w1]. cbn [fst snd] in *.
    assert (Ho : o = Some (wrapWriteLog
                             (ErrNew ("write " ++ name ++ ": bad file descriptor"))))
      by exact (f_equal snd Hr).
    rewrite Ho. reflexivity. }
  destruct Hrun as (e & l & _ & ->). cbn [fst snd].
  split; [reflexivity|]. split.
  - apply Silent_logErrors.
  - apply KeepsAnswers_logErrors.
Qed.

Lemma do_tag_error_without_write_access_witness :
  fst (Sync2.do unit unit (list File) (demo_platform false) demo_env2_bad_tags demo_conf
         (demo_world ["y"; "y"; "y"]))
  = Some (ErrWrap ("failed to write log file: write " ++ log_file_name noon
                     ++ ": bad file descriptor") (Sentinel errWriteLog)).
Proof.
  pose proof (do_tag_error_without_write_access unit unit (list File) (demo_platform false)
                demo_env2_bad_tags demo_conf (demo_world ["y"; "y"; "y"])) as H.
  cbv zeta in H. destruct H as (H & _).
  - reflexivity.
  - reflexivity.
  - discriminate.
  - reflexivity.
  - vm_compute. repeat split; apply Nat.leb_le; reflexivity.
  - reflexivity.
  - exact H.
Defined.

(** ** Copies need consent *)

Lemma quiet_not_copy (evs : list Event) (e : Event) :
  forallb quiet evs = true -> In e evs -> is_copy e = false.
Proof.
  intros Hq Hin. rewrite forallb_forall in Hq. specialize (Hq e Hin).
  unfold quiet in Hq. apply andb_true_iff in Hq. destruct Hq as [H _].
  now apply negb_true_iff in H.
Qed.

Lemma not_declined (t : string) : ToLower t <> "n" -> declines t = false.
Proof. intros H. rewrite <- ToLower_n. now apply String.eqb_neq. Qed.

(** X23. In the second revision [filesync.Do] is called at most once in a
    run, and only right after the user has answered "Start Sync?" with
    something other than "n" or "N": no copy comes before the question,
    and none after the call. *)
Theorem filesync_Do_needs_consent (Filter ConfigTag Transformed : Type) (pf : Platform)
    (env : Sync2.Env Filter ConfigTag Transformed) (conf : config.Config Filter) (w : World) :
  exists evs,
    trace (snd (Sync2.do Filter ConfigTag Transformed pf env conf w)) = (trace w ++ evs)%list
    /\ forall plan errs,
         In (EvSync plan errs) evs ->
         exists before t after,
           evs = (before ++ EvPrompt start_question t :: EvSync plan errs :: after)%list
           /\ declines t = false
           /\ forallb quiet before = true
           /\ forallb quiet after = true.
Proof.
  destruct (do_start_prompt Filter ConfigTag Transformed pf env conf w) as (evs & E & S).
  exists evs. split; [exact E|]. intros plan errs Hin.
  destruct S as [[Hq _]|[(b & t & -> & Hb & _)|(b & t & p & es & a & -> & Hb & Ha & Ht)]].
  - pose proof (quiet_not_copy evs _ Hq Hin). discriminate.
  - apply in_app_or in Hin. destruct Hin as [Hin|[Hin|[]]].
    + pose proof (quiet_not_copy b _ Hb Hin). discriminate.
    + discriminate.
  - apply in_app_or in Hin. destruct Hin as [Hin|[Hin|[Hin|Hin]]].
    + pose proof (quiet_not_copy b _ Hb Hin). discriminate.
    + discriminate.
    + injection Hin as -> ->. exists b, t, a.
      split; [reflexivity|]. split; [now apply not_declined|]. now split.
    + pose proof (quiet_not_copy a _ Ha Hin). discriminate.
Qed.

Lemma Shaped1_ret {A : Type} (a : A) : Shaped1 (ret a).
Proof. intros w. exists []. simpl. rewrite app_nil_r. split; [reflexivity | now left]. Qed.

Lemma Shaped1_bind {A B : Type} (m : M A) (k : A -> M B) :
  Quiet m -> (forall a, Shaped1 (k a)) -> Shaped1 (bind m k).
Proof.
  intros Hm Hk w. unfold bind.
  destruct (Hm w) as (e1 & E1 & Q1). destruct (m w) as [a w1]. simpl in E1.
  destruct (Hk a w1) as (e2 & E2 & S2).
  exists (e1 ++ e2)%list. rewrite E2, E1, app_assoc. split; [reflexivity|].
  destruct S2 as [Q2|(b & t & af & -> & Qb & Hd)].
  - left. now rewrite forallb_app, Q1, Q2.
  - right. exists (e1 ++ b)%list, t, af.
    rewrite app_assoc, forallb_app, Q1, Qb. now repeat split.
Qed.

Lemma Quiet_after_sync' (pf : Platform) (globErr : bool) (errs : list error) :
  Quiet (after_sync pf globErr errs).
Proof. exact (Quiet_after_sync pf globErr errs). Qed.

Lemma Shaped1_do_sync (Filter : Type) (pf : Platform) (env : Sync1.Env Filter)
    (globErr : bool) (plan : list sync.File_) :
  Shaped1 (Sync1.do_sync Filter pf env globErr plan).
Proof.
  intros w. rewrite do_sync_after_sync. unfold bind.
  pose proof (snycFiles_run Filter env plan w) as Hs. cbv zeta in Hs.
  destruct (declines (hd "" (answers w))) eqn:Hd.
  - rewrite Hs. exists [EvPrompt start_question (hd "" (answers w))].
    split; [destruct globErr; reflexivity|]. right.
    exists [], (hd "" (answers w)), []. now repeat split.
  - destruct Hs as (outcomes & _ & Hs). rewrite Hs.
    destruct (Quiet_after_sync' pf globErr (failed outcomes)
                (add_trace (pop_answer w)
                   (EvPrompt start_question (hd "" (answers w)) :: map copy_event outcomes)))
      as (after & E & _).
    exists (EvPrompt start_question (hd "" (answers w)) :: map copy_event outcomes ++ after)%list.
    split.
    + rewrite E. cbn [add_trace pop_answer trace]. now rewrite <- app_assoc.
    + right. exists [], (hd "" (answers w)), (map copy_event outcomes ++ after)%list.
      split; [reflexivity|]. split; [reflexivity|]. congruence.
Qed.

Lemma Shaped1_do (Filter : Type) (pf : Platform) (env : Sync1.Env Filter)
    (conf : config.Config Filter) :
  Shaped1 (Sync1.do Filter pf env conf).
Proof.
  unfold Sync1.do.
  destruct (negb _); [apply Shaped1_ret|].
  destruct (negb _); [apply Shaped1_ret|].
  destruct (Sync1.readFileList _ _ _ _) as [fileList|err]; [|apply Shaped1_ret].
  destruct (Sync1.diff Filter env fileList _ _) as [plan errs].
  apply Shaped1_bind.
  { destruct (0 <? List.length errs)%nat; [|apply Quiet_ret].
    apply Quiet_bind; [apply Quiet_showAndLogErrors | intros r; apply Quiet_ret]. }
  intros [[err|] globErr]; [apply Shaped1_ret|].
  apply Shaped1_bind; [apply Quiet_listDiff | intros _].
  apply Shaped1_bind; [apply Quiet_diskSpace | intros [err|]]; [apply Shaped1_ret|].
  apply Shaped1_do_sync.
Qed.

(** X24. In the first revision every call of [sync.Do] in a run comes
    after the user has answered "Start Sync?" with something other than
    "n" or "N"; before that question nothing is copied, and after an
    answer "n" or "N" nothing happens at all. *)
Theorem sync_Do_needs_consent (Filter : Type) (pf : Platform) (env : Sync1.Env Filter)
    (conf : config.Config Filter) (w : World) :
  exists evs,
    trace (snd (Sync1.do Filter pf env conf w)) = (trace w ++ evs)%list
    /\ (forall f r,
          In (EvCopy f r) evs ->
          exists before t after,
            evs = (before ++ EvPrompt start_question t :: after)%list
            /\ declines t = false
            /\ forallb quiet before = true
            /\ In (EvCopy f r) after)
    /\ (forall before t after,
          evs = (before ++ EvPrompt start_question t :: after)%list ->
          forallb quiet before = true ->
          declines t = true -> after = []).
Proof.
  destruct (Shaped1_do Filter pf env conf w) as (evs & E & S).
  exists evs. split; [exact E|]. split.
  - intros f r Hin. destruct S as [Hq|(b & t & af & -> & Hb & Hd)].
    + pose proof (quiet_not_copy evs _ Hq Hin). discriminate.
    + apply in_app_or in Hin. destruct Hin as [Hin|[Hin|Hin]].
      * pose proof (quiet_not_copy b _ Hb Hin). discriminate.
      * discriminate.
      * exists b, t, af. split; [reflexivity|]. split; [|now split].
        destruct (declines t); [|reflexivity].
        rewrite (Hd eq_refl) in Hin. destruct Hin.
  - intros before t after Hevs Hb Ht.
    destruct S as [Hq|(b & t' & af & Hevs' & Hb' & Hd)].
    + exfalso. rewrite Hevs, forallb_app in Hq. apply andb_true_iff in Hq.
      destruct Hq as [_ Hq]. cbn [forallb] in Hq. unfold quiet at 1 in Hq.
      cbn [is_copy is_start_prompt negb andb] in Hq.
      rewrite String.eqb_refl in Hq. discriminate.
    + (* the first non-quiet event fixes the split *)
      rewrite Hevs in Hevs'. clear Hevs.
      assert (Hsplit : forall (b1 b2 : list Event) e1 e2 a1 a2,
                 forallb quiet b1 = true -> forallb quiet b2 = true ->
                 quiet e1 = false -> quiet e2 = false ->
                 (b1 ++ e1 :: a1 = b2 ++ e2 :: a2)%list ->
                 e1 = e2 /\ a1 = a2).
      { induction b1 as [|x b1 IH]; intros [|y b2] e1 e2 a1 a2 Q1 Q2 N1 N2 Heq.
        - injection Heq as -> ->. now split.
        - injection Heq as -> _. cbn [forallb] in Q2. rewrite N1 in Q2. discriminate.
        - injection Heq as <- _. cbn [forallb] in Q1. rewrite N2 in Q1. discriminate.
        - injection Heq as _ Heq. cbn [forallb] in Q1, Q2.
          apply andb_true_iff in Q1. apply andb_true_iff in Q2.
          now apply (IH b2 e1 e2 a1 a2). }
      assert (Hnq : forall x, quiet (EvPrompt start_question x) = false).
      { intros x. unfold quiet. cbn [is_copy is_start_prompt negb andb].
        now rewrite String.eqb_refl. }
      destruct (Hsplit before b _ _ after af Hb Hb' (Hnq t) (Hnq t') Hevs') as [Het Haf].
      injection Het as <-. subst af. now apply Hd.
Qed.

(** ** The further properties on the small library *)

Lemma diff_sound_witness :
  List.length (fst (Sync1.diff unit (demo_env [] 1000 (fun _ => false))
                      [song "a.mp3" 10; song "b.mp3" 20] "/player" "/music"))
  + List.length (snd (Sync1.diff unit (demo_env [] 1000 (fun _ => false))
                        [song "a.mp3" 10; song "b.mp3" 20] "/player" "/music"))
  <= List.length [song "a.mp3" 10; song "b.mp3" 20]
  /\ Sync1.IsInSync unit (demo_env [] 1000 (fun _ => false)) (plan_entry "a.mp3" 10) = false.
Proof.
  pose proof (diff_sound unit (demo_env [] 1000 (fun _ => false)) "/player" "/music"
                [song "a.mp3" 10; song "b.mp3" 20]) as H.
  cbv zeta in H. destruct H as (Hlen & Hplan & _).
  split; [exact Hlen|].
  apply (Hplan (plan_entry "a.mp3" 10)). vm_compute. now left.
Defined.

Lemma filesync_Do_needs_consent_witness :
  exists evs,
    trace (snd (Sync2.do unit unit (list File) (demo_platform true) (demo_env2 [])
                  demo_conf (demo_world [""; "y"])))
    = (trace (demo_world [""; "y"]) ++ evs)%list
    /\ exists before t after,
         evs = (before ++ EvPrompt start_question t
                       :: EvSync [plan_entry "a.mp3" 10] [] :: after)%list
         /\ declines t = false.
Proof.
  destruct (filesync_Do_needs_consent unit unit (list File) (demo_platform true)
              (demo_env2 []) demo_conf (demo_world [""; "y"])) as (evs & E & H).
  exists evs. split; [exact E|].
  destruct (H [plan_entry "a.mp3" 10] []) as (b & t & a & Hevs & Ht & _).
  - apply (app_inv_head (trace (demo_world [""; "y"]))) in E. rewrite <- E.
    vm_compute. tauto.
  - exists b, t, a. now split.
Defined.

Lemma sync_Do_needs_consent_witness :
  exists evs,
    trace (snd (Sync1.do unit (demo_platform true)
                  (demo_env [song "a.mp3" 10] 1000 (fun _ => false))
                  demo_conf (demo_world [""; "y"])))
    = (trace (demo_world [""; "y"]) ++ evs)%list
    /\ exists before t after,
         evs = (before ++ EvPrompt start_question t :: after)%list
         /\ declines t = false
         /\ In (EvCopy (plan_entry "a.mp3" 10) None) after.
Proof.
  destruct (sync_Do_needs_consent unit (demo_platform true)
              (demo_env [song "a.mp3" 10] 1000 (fun _ => false))
              demo_conf (demo_world [""; "y"])) as (evs & E & H & _).
  exists evs. split; [exact E|].
  destruct (H (plan_entry "a.mp3" 10) None) as (b & t & a & Hevs & Ht & _ & Hin).
  - apply (app_inv_head (trace (demo_world [""; "y"]))) in E. rewrite <- E.
    vm_compute. tauto.
  - exists b, t, a. now repeat split.
Defined.
